(** * rest_framework_simplejwt.tokens: a shallow embedding

    The module [tokens.py] defines the class [Token], the mix-in
    [BlacklistMixin] and the three concrete classes [SlidingToken],
    [RefreshToken] and [AccessToken].  Token objects are mutable Python
    objects; their methods read the clock, draw random identifiers, call the
    token backend and query the blacklist tables.  All of that is threaded
    through an explicit [world], with a small state-and-exception monad. *)

From stdpp Require Import gmap strings list fin_maps.

Open Scope Z_scope.
Open Scope string_scope.

(** ** Values *)

(** A claim value, as the JSON decoder hands it back.  JSON floats are left
    out of the model. *)
#[local] Set Warnings "-register-all,-clear-no-such-hyp".
Inductive claim_value :=
  | VInt (n : Z)
  | VStr (s : string)
  | VNull
  | VList (l : list claim_value).

(** The value of an attribute of a user object, as [getattr] returns it:
    an [int], a text string, or any other object, of which only its
    [text_type] rendering matters here. *)
Inductive attr_value :=
  | AInt (n : Z)
  | AText (s : string)
  | AObject (rendering : string).

(** Exceptions that the code of this module raises or lets through. *)
Inductive exn :=
  | TokenError (msg : string)
  | KeyError (key : string)
  | TypeError
  | ValueError
  | AttributeError.

Definition exn_name (e : exn) : string :=
  match e with
  | TokenError _ => "TokenError"
  | KeyError _ => "KeyError"
  | TypeError => "TypeError"
  | ValueError => "ValueError"
  | AttributeError => "AttributeError"
  end.

(** ** Time

    Modelled from the spec: [utils.py] ([aware_utcnow], [datetime_to_epoch],
    [datetime_from_epoch]) is not among the sources.  The spec has
    [set_exp] compute [from_time + lifetime] and convert the sum to an
    integer epoch timestamp, and [check_exp] compare the claim's timestamp
    with the captured time.  A [datetime] is a count of microseconds since
    the epoch, a [timedelta] a signed count of microseconds. *)
Abbreviation datetime := Z (only parsing).
Abbreviation timedelta := Z (only parsing).

Definition microseconds_per_second : Z := 1000000.

Definition seconds (n : Z) : timedelta := n * microseconds_per_second.

Definition datetime_to_epoch (dt : datetime) : Z := dt `div` microseconds_per_second.

(** Only an integer is a timestamp; anything else makes the conversion raise
    [TypeError]. *)
Definition datetime_from_epoch (v : claim_value) : option datetime :=
  match v with
  | VInt ts => Some (ts * microseconds_per_second)
  | _ => None
  end.

(** ** Settings

    [api_settings] and [settings.INSTALLED_APPS] are configuration, read
    when the module is loaded; they are a parameter of everything below. *)
Record api_settings := {
  TOKEN_TYPE_CLAIM : string;
  USER_ID_FIELD : string;
  USER_ID_CLAIM : string;
  ACCESS_TOKEN_LIFETIME : option timedelta;
  REFRESH_TOKEN_LIFETIME : option timedelta;
  SLIDING_TOKEN_LIFETIME : option timedelta;
  SLIDING_TOKEN_REFRESH_LIFETIME : option timedelta;
  SLIDING_TOKEN_REFRESH_EXP_CLAIM : string;
  (** ['rest_framework_simplejwt.token_blacklist' in settings.INSTALLED_APPS] *)
  token_blacklist_installed : bool
}.

(** ** Classes *)

(** [Token] and its subclasses.  [Token_subclass ty lt] is a direct subclass
    of [Token] whose body sets (or leaves at [None]) the two class
    attributes; [Token_subclass None None] behaves as [Token] itself. *)
Inductive token_class :=
  | Token_subclass (ty : option string) (lt : option timedelta)
  | SlidingToken
  | RefreshToken
  | AccessToken.

Definition token_type (c : token_class) : option string :=
  match c with
  | Token_subclass ty _ => ty
  | SlidingToken => Some "sliding"
  | RefreshToken => Some "refresh"
  | AccessToken => Some "access"
  end.

Definition lifetime (cfg : api_settings) (c : token_class) : option timedelta :=
  match c with
  | Token_subclass _ lt => lt
  | SlidingToken => SLIDING_TOKEN_LIFETIME cfg
  | RefreshToken => REFRESH_TOKEN_LIFETIME cfg
  | AccessToken => ACCESS_TOKEN_LIFETIME cfg
  end.

(** Whether [BlacklistMixin] is a base of the class. *)
Definition has_BlacklistMixin (c : token_class) : bool :=
  match c with
  | SlidingToken | RefreshToken => true
  | _ => false
  end.

(** ** Objects and the world *)

Definition loc := positive.
Definition uuid := N.

(** The instance attributes of a token object. *)
Record token_object := {
  o_class : token_class;
  o_token : option string;
  o_current_time : datetime;
  o_payload : gmap string claim_value
}.

(** A row of the outstanding-token table. *)
Record outstanding_row := {
  row_user : gmap string attr_value;
  row_jti : uuid;
  row_token : string;
  row_created_at : datetime;
  row_expires_at : datetime
}.

(** Calls made to the token_blacklist tables, in the order they happen. *)
Inductive ledger_call :=
  | BlacklistedToken_get (jti : uuid)
  | OutstandingToken_create (row : outstanding_row).

Record world := {
  (** the clock: the value of the n-th reading *)
  w_clock : nat → datetime;
  w_clock_reads : nat;
  (** the random source behind [uuid4]: the n-th identifier drawn *)
  w_uuid4 : nat → uuid;
  w_uuid4_draws : nat;
  (** the objects that exist *)
  w_heap : gmap loc token_object;
  (** Modelled from the spec: the token_blacklist models are not among the
      sources; the ledger is the set of blacklisted identifiers and the list
      of rows recorded as outstanding. *)
  w_blacklisted : gset uuid;
  w_outstanding : list outstanding_row;
  w_ledger_calls : list ledger_call
}.

Definition set_heap (h : gmap loc token_object) (w : world) : world :=
  {| w_clock := w_clock w; w_clock_reads := w_clock_reads w;
     w_uuid4 := w_uuid4 w; w_uuid4_draws := w_uuid4_draws w;
     w_heap := h;
     w_blacklisted := w_blacklisted w; w_outstanding := w_outstanding w;
     w_ledger_calls := w_ledger_calls w |}.

(** ** The monad: state and exceptions *)

Inductive outcome (A : Type) :=
  | Return (a : A)
  | Raise (e : exn).
Arguments Return {A} a.
Arguments Raise {A} e.

Definition M (A : Type) : Type := world → outcome A * world.

Definition ret {A} (a : A) : M A := λ w, (Return a, w).
Definition raise {A} (e : exn) : M A := λ w, (Raise e, w).
Definition bind {A B} (m : M A) (k : A → M B) : M B :=
  λ w, match m w with
       | (Return a, w') => k a w'
       | (Raise e, w') => (Raise e, w')
       end.

#[global] Instance M_ret : MRet M := @ret.
#[global] Instance M_bind : MBind M := λ A B k m, bind m k.

Fixpoint for_each {A} (l : list A) (body : A → M unit) : M unit :=
  match l with
  | [] => ret tt
  | x :: l' => body x;; for_each l' body
  end.

(** *** Primitive operations on the world *)

Definition aware_utcnow : M datetime :=
  λ w, (Return (w_clock w (w_clock_reads w)),
        {| w_clock := w_clock w; w_clock_reads := S (w_clock_reads w);
           w_uuid4 := w_uuid4 w; w_uuid4_draws := w_uuid4_draws w;
           w_heap := w_heap w;
           w_blacklisted := w_blacklisted w; w_outstanding := w_outstanding w;
           w_ledger_calls := w_ledger_calls w |}).

Definition uuid4 : M uuid :=
  λ w, (Return (w_uuid4 w (w_uuid4_draws w)),
        {| w_clock := w_clock w; w_clock_reads := w_clock_reads w;
           w_uuid4 := w_uuid4 w; w_uuid4_draws := S (w_uuid4_draws w);
           w_heap := w_heap w;
           w_blacklisted := w_blacklisted w; w_outstanding := w_outstanding w;
           w_ledger_calls := w_ledger_calls w |}).

(** [cls.__new__]: a new object of the class, none of its attributes
    assigned yet. *)
Definition new_object (c : token_class) : M loc :=
  λ w, let l := fresh (dom (w_heap w)) in
       (Return l,
        set_heap (<[l := {| o_class := c; o_token := None;
                            o_current_time := 0; o_payload := ∅ |}]> (w_heap w)) w).

(** Reading an object that does not exist cannot happen from Python; the
    model raises [AttributeError] there. *)
Definition read {A} (self : loc) (field : token_object → A) : M A :=
  λ w, match w_heap w !! self with
       | Some o => (Return (field o), w)
       | None => (Raise AttributeError, w)
       end.

Definition update (self : loc) (f : token_object → token_object) : M unit :=
  λ w, match w_heap w !! self with
       | Some o => (Return tt, set_heap (<[self := f o]> (w_heap w)) w)
       | None => (Raise AttributeError, w)
       end.

Definition with_token (t : option string) (o : token_object) : token_object :=
  {| o_class := o_class o; o_token := t;
     o_current_time := o_current_time o; o_payload := o_payload o |}.

Definition with_current_time (t : datetime) (o : token_object) : token_object :=
  {| o_class := o_class o; o_token := o_token o;
     o_current_time := t; o_payload := o_payload o |}.

Definition with_payload (p : gmap string claim_value) (o : token_object) : token_object :=
  {| o_class := o_class o; o_token := o_token o;
     o_current_time := o_current_time o; o_payload := p |}.

Definition BlacklistedToken_objects_get (jti : uuid) : M bool :=
  λ w, (Return (bool_decide (jti ∈ w_blacklisted w)),
        {| w_clock := w_clock w; w_clock_reads := w_clock_reads w;
           w_uuid4 := w_uuid4 w; w_uuid4_draws := w_uuid4_draws w;
           w_heap := w_heap w;
           w_blacklisted := w_blacklisted w; w_outstanding := w_outstanding w;
           w_ledger_calls := w_ledger_calls w ++ [BlacklistedToken_get jti] |}).

Definition OutstandingToken_objects_create (row : outstanding_row) : M unit :=
  λ w, (Return tt,
        {| w_clock := w_clock w; w_clock_reads := w_clock_reads w;
           w_uuid4 := w_uuid4 w; w_uuid4_draws := w_uuid4_draws w;
           w_heap := w_heap w;
           w_blacklisted := w_blacklisted w;
           w_outstanding := w_outstanding w ++ [row];
           w_ledger_calls := w_ledger_calls w ++ [OutstandingToken_create row] |}).

(** ** tokens.py *)

(** What the module imports from outside: the settings, the token backend
    of [state.py] ([decode] returns the claims or raises [TokenBackendError]
    with some reason; [encode] signs a payload) and Python's [uuid] module
    ([UUID(hex=s)] on a string, [None] standing for its [ValueError], and the
    [hex] attribute of a [UUID]). *)
Record environment := {
  settings : api_settings;
  token_backend_decode : string → string + gmap string claim_value;
  token_backend_encode : gmap string claim_value → string;
  UUID_of_hex : string → option uuid;
  UUID_hex : uuid → string
}.

Section tokens.

Variable env : environment.

#[local] Abbreviation api_settings_ := (settings env).

(** [UUID(hex=v)] on any value: only a string has the methods that the
    parser calls. *)
Definition UUID (v : claim_value) : M uuid :=
  match v with
  | VStr s =>
      match UUID_of_hex env s with
      | Some u => mret u
      | None => raise ValueError
      end
  | VNull => raise TypeError
  | VInt _ | VList _ => raise AttributeError
  end.

(** [a != b] for a string [a] and any claim value [b]. *)
Definition str_ne (a : string) (b : claim_value) : bool :=
  match b with
  | VStr s => negb (String.eqb a s)
  | _ => true
  end.

(** *** class Token *)

Definition Token___getitem__ (self : loc) (key : string) : M claim_value :=
  p ← read self o_payload;
  match p !! key with
  | Some v => mret v
  | None => raise (KeyError key)
  end.

Definition Token___setitem__ (self : loc) (key : string) (value : claim_value) : M unit :=
  update self (λ o, with_payload (<[key := value]> (o_payload o)) o).

Definition Token___delitem__ (self : loc) (key : string) : M unit :=
  p ← read self o_payload;
  match p !! key with
  | Some _ => update self (λ o, with_payload (delete key (o_payload o)) o)
  | None => raise (KeyError key)
  end.

Definition Token___contains__ (self : loc) (key : string) : M bool :=
  p ← read self o_payload;
  mret (bool_decide (is_Some (p !! key))).

Definition Token___str__ (self : loc) : M string :=
  p ← read self o_payload;
  mret (token_backend_encode env p).

Definition set_exp (self : loc) (claim : string)
    (from_time : option datetime) (lifetime_ : option timedelta) : M unit :=
  from_time ← match from_time with
              | None => read self o_current_time
              | Some t => mret t
              end;
  lifetime_ ← match lifetime_ with
              | None => c ← read self o_class; mret (lifetime api_settings_ c)
              | Some d => mret (Some d)
              end;
  match lifetime_ with
  | None => raise TypeError
  | Some d =>
      Token___setitem__ self claim (VInt (datetime_to_epoch (from_time + d)))
  end.

Definition check_exp (self : loc) (claim : string)
    (current_time : option datetime) : M unit :=
  current_time ← match current_time with
                 | None => read self o_current_time
                 | Some t => mret t
                 end;
  p ← read self o_payload;
  match p !! claim with
  | None => raise (TokenError ("Token has no '" +:+ claim +:+ "' claim"))
  | Some value =>
      match datetime_from_epoch value with
      | None => raise TypeError
      | Some claim_time =>
          if bool_decide (claim_time ≤ current_time)%Z
          then raise (TokenError ("Token '" +:+ claim +:+ "' claim has expired"))
          else mret tt
      end
  end.

Definition Token___init__ (self : loc) (token : option string) : M unit :=
  c ← read self o_class;
  match token_type c, lifetime api_settings_ c with
  | Some self_token_type, Some self_lifetime =>
      update self (with_token token);;
      now ← aware_utcnow;
      update self (with_current_time now);;
      match token with
      | Some token =>
          (* An encoded token was provided *)
          match token_backend_decode env token with
          | inr claims => update self (with_payload claims)
          | inl _ => raise (TokenError "Token is invalid or expired")
          end;;
          check_exp self "exp" None;;
          p ← read self o_payload;
          match p !! TOKEN_TYPE_CLAIM api_settings_ with
          | None => raise (TokenError "Token has no type")
          | Some token_type =>
              if str_ne self_token_type token_type
              then raise (TokenError "Token has wrong type")
              else
                if bool_decide (is_Some (p !! "jti"))
                then mret tt
                else raise (TokenError "Token has no id")
          end
      | None =>
          (* This is a new token *)
          jti ← uuid4;
          update self (with_payload
            (<["jti" := VStr (UUID_hex env jti)]>
               (<[TOKEN_TYPE_CLAIM api_settings_ := VStr self_token_type]> ∅)));;
          current_time ← read self o_current_time;
          set_exp self "exp" (Some current_time) (Some self_lifetime)
      end
  | _, _ => raise (TokenError "Cannot create token with no type or lifetime")
  end.

(** *** class BlacklistMixin

    The three methods exist only when the token_blacklist app is
    installed; otherwise the class body is empty and the methods of
    [Token] are inherited. *)

Definition check_blacklist (self : loc) : M unit :=
  jti_claim ← Token___getitem__ self "jti";
  jti ← UUID jti_claim;
  found ← BlacklistedToken_objects_get jti;
  if found : bool then raise (TokenError "Token is blacklisted") else mret tt.

Definition BlacklistMixin___init__ (self : loc) (token : option string) : M unit :=
  Token___init__ self token;;
  t ← read self o_token;
  match t with
  | Some _ => check_blacklist self
  | None => mret tt
  end.

(** [super(SlidingToken, self).__init__] and the [__init__] that
    [RefreshToken] inherits: the next [__init__] after [BlacklistMixin] in
    the method resolution order. *)
Definition mixin_or_Token___init__ (self : loc) (token : option string) : M unit :=
  if token_blacklist_installed api_settings_
  then BlacklistMixin___init__ self token
  else Token___init__ self token.

(** *** class SlidingToken *)

Definition SlidingToken___init__ (self : loc) (token : option string) : M unit :=
  mixin_or_Token___init__ self token;;
  t ← read self o_token;
  match t with
  | None =>
      current_time ← read self o_current_time;
      set_exp self (SLIDING_TOKEN_REFRESH_EXP_CLAIM api_settings_)
        (Some current_time) (SLIDING_TOKEN_REFRESH_LIFETIME api_settings_)
  | Some _ => mret tt
  end.

(** *** Instantiation: [cls(token)] *)

Definition __init__ (c : token_class) : loc → option string → M unit :=
  match c with
  | Token_subclass _ _ | AccessToken => Token___init__
  | RefreshToken => mixin_or_Token___init__
  | SlidingToken => SlidingToken___init__
  end.

Definition construct (c : token_class) (token : option string) : M loc :=
  self ← new_object c;
  __init__ c self token;;
  mret self.

(** *** for_user *)

Definition getattr (user : gmap string attr_value) (name : string) : M attr_value :=
  match user !! name with
  | Some a => mret a
  | None => raise AttributeError
  end.

(** [user_id if isinstance(user_id, int) else text_type(user_id)], as a
    claim value. *)
Definition user_id_claim (user_id : attr_value) : claim_value :=
  match user_id with
  | AInt n => VInt n
  | AText s => VStr s
  | AObject rendering => VStr rendering
  end.

Definition Token_for_user (cls : token_class) (user : gmap string attr_value) : M loc :=
  user_id ← getattr user (USER_ID_FIELD api_settings_);
  token ← construct cls None;
  Token___setitem__ token (USER_ID_CLAIM api_settings_) (user_id_claim user_id);;
  mret token.

Definition BlacklistMixin_for_user (cls : token_class) (user : gmap string attr_value) : M loc :=
  token ← Token_for_user cls user;
  exp ← Token___getitem__ token "exp";
  jti ← Token___getitem__ token "jti";
  jti_uuid ← UUID jti;
  encoded ← Token___str__ token;
  created_at ← read token o_current_time;
  match datetime_from_epoch exp with
  | None => raise TypeError
  | Some expires_at =>
      OutstandingToken_objects_create
        {| row_user := user; row_jti := jti_uuid; row_token := encoded;
           row_created_at := created_at; row_expires_at := expires_at |}
  end;;
  mret token.

Definition for_user (cls : token_class) : gmap string attr_value → M loc :=
  if has_BlacklistMixin cls && token_blacklist_installed api_settings_
  then BlacklistMixin_for_user cls
  else Token_for_user cls.

(** *** class RefreshToken *)

Definition no_copy_claims : list string :=
  [TOKEN_TYPE_CLAIM api_settings_; "exp"; "jti"].

Definition access_token (self : loc) : M loc :=
  access ← construct AccessToken None;
  self_current_time ← read self o_current_time;
  set_exp access "exp" (Some self_current_time) None;;
  let no_copy := no_copy_claims in
  items ← read self (λ o, map_to_list (o_payload o));
  for_each items (λ '(claim, value),
    if bool_decide (claim ∈ no_copy)
    then mret tt
    else Token___setitem__ access claim value);;
  mret access.

End tokens.

(** * Notions used in the statements *)

(** ** Worlds after a step *)

Definition set_object (l : loc) (o : token_object) (w : world) : world :=
  set_heap (<[l := o]> (w_heap w)) w.

Definition now (w : world) : datetime := w_clock w (w_clock_reads w).
Definition tick (w : world) : world := (aware_utcnow w).2.
Definition next_uuid (w : world) : uuid := w_uuid4 w (w_uuid4_draws w).
Definition drawn (w : world) : world := (uuid4 w).2.
Definition queried (jti : uuid) (w : world) : world := (BlacklistedToken_objects_get jti w).2.
Definition recorded (row : outstanding_row) (w : world) : world :=
  (OutstandingToken_objects_create row w).2.

(** The attributes of an object on which [__init__] has not run yet. *)
Definition blank (c : token_class) : token_object :=
  {| o_class := c; o_token := None; o_current_time := 0; o_payload := ∅ |}.

Definition payload_of (w : world) (l : loc) : option (gmap string claim_value) :=
  o_payload <$> w_heap w !! l.

(** The checks that [Token.__init__] runs on decoded claims, in its order:
    the outcome of the code between the call of the backend and the end of
    the branch, as [Token___init___decode] shows. *)
Definition decoded_checks (cfg : api_settings) (self_token_type : string)
    (current_time : datetime) (p : gmap string claim_value) : outcome unit :=
  match p !! "exp" with
  | None => Raise (TokenError "Token has no 'exp' claim")
  | Some value =>
      match datetime_from_epoch value with
      | None => Raise TypeError
      | Some claim_time =>
          if bool_decide (claim_time ≤ current_time)%Z
          then Raise (TokenError "Token 'exp' claim has expired")
          else
            match p !! TOKEN_TYPE_CLAIM cfg with
            | None => Raise (TokenError "Token has no type")
            | Some token_type =>
                if str_ne self_token_type token_type
                then Raise (TokenError "Token has wrong type")
                else
                  if bool_decide (is_Some (p !! "jti"))
                  then Return tt
                  else Raise (TokenError "Token has no id")
            end
      end
  end.

(** The payload that [Token.__init__] gives a new token. *)
Definition fresh_payload (env : environment) (ty : string) (jti : uuid)
    (current_time : datetime) (lt : timedelta) : gmap string claim_value :=
  <["exp" := VInt (datetime_to_epoch (current_time + lt))]>
    (<["jti" := VStr (UUID_hex env jti)]>
       (<[TOKEN_TYPE_CLAIM (settings env) := VStr ty]> ∅)).

(** The payload after the copying loop of [access_token] has gone through
    [items], starting from [p]. *)
Definition copy_claims (no_copy : list string) (items : list (string * claim_value))
    (p : gmap string claim_value) : gmap string claim_value :=
  foldl (λ acc item, if bool_decide (item.1 ∈ no_copy) then acc else <[item.1 := item.2]> acc)
    p items.

Section notions.

Variable env : environment.

(** Whether the methods of [BlacklistMixin] are in force for the class. *)
Definition mixin_active (c : token_class) : bool :=
  has_BlacklistMixin c && token_blacklist_installed (settings env).

(** The payload of a new token of the class: [SlidingToken.__init__]
    stamps one more claim on what [Token.__init__] built. *)
Definition new_payload (c : token_class) (ty : string) (jti : uuid)
    (current_time : datetime) (lt : timedelta) : gmap string claim_value :=
  match c with
  | SlidingToken =>
      <[SLIDING_TOKEN_REFRESH_EXP_CLAIM (settings env) :=
          VInt (datetime_to_epoch
                  (current_time
                   + default lt (SLIDING_TOKEN_REFRESH_LIFETIME (settings env))))]>
        (fresh_payload env ty jti current_time lt)
  | _ => fresh_payload env ty jti current_time lt
  end.

(** The world once the decoded claims are stored in the object. *)
Definition decoded_world (self : loc) (c : token_class) (token : string)
    (claims : gmap string claim_value) (w : world) : world :=
  set_object self
    {| o_class := c; o_token := Some token;
       o_current_time := now w; o_payload := claims |} (tick w).

(** The payload of the access token that [access_token] returns for a
    token with payload [p] and captured time [current_time]. *)
Definition derived_payload (w : world) (p : gmap string claim_value)
    (current_time : datetime) (access_lifetime : timedelta) : gmap string claim_value :=
  copy_claims (no_copy_claims env) (map_to_list p)
    (<["exp" := VInt (datetime_to_epoch (current_time + access_lifetime))]>
       (fresh_payload env "access" (next_uuid w) (now w) access_lifetime)).

End notions.

(** What the registration of a new token as outstanding needs, when
    [BlacklistMixin.for_user] is the method in force: the user id claim is
    neither exp nor jti, the sliding refresh claim is not jti, and the hex
    form of the identifier drawn reads back as a UUID. *)
Definition registration_ready (env : environment) (c : token_class) (w : world) : Prop :=
  mixin_active env c = true →
  USER_ID_CLAIM (settings env) ≠ "exp"
  ∧ USER_ID_CLAIM (settings env) ≠ "jti"
  ∧ (c = SlidingToken → SLIDING_TOKEN_REFRESH_EXP_CLAIM (settings env) ≠ "jti")
  ∧ is_Some (UUID_of_hex env (UUID_hex env (next_uuid w))).

(** The settings name the claims apart: the type claim is neither exp nor
    jti and, for a sliding token, the refresh claim is none of the three. *)
Definition distinct_claim_names (env : environment) (c : token_class) : Prop :=
  TOKEN_TYPE_CLAIM (settings env) ≠ "exp"
  ∧ TOKEN_TYPE_CLAIM (settings env) ≠ "jti"
  ∧ (c = SlidingToken →
       SLIDING_TOKEN_REFRESH_EXP_CLAIM (settings env) ≠ TOKEN_TYPE_CLAIM (settings env)
       ∧ SLIDING_TOKEN_REFRESH_EXP_CLAIM (settings env) ≠ "exp"
       ∧ SLIDING_TOKEN_REFRESH_EXP_CLAIM (settings env) ≠ "jti").

(** The claim [claim] of [p] is a timestamp strictly after [current_time]. *)
Definition unexpired (p : gmap string claim_value) (claim : string)
    (current_time : datetime) : Prop :=
  ∃ value claim_time,
    p !! claim = Some value ∧ datetime_from_epoch value = Some claim_time
    ∧ (current_time < claim_time)%Z.

(** ** An example deployment

    The default settings with the token_blacklist app installed, a backend
    that knows a handful of encoded tokens, and a clock that stands a
    quarter of a millisecond after second 1000 and advances by one second
    at each reading. *)

Definition default_settings : api_settings :=
  {| TOKEN_TYPE_CLAIM := "token_type";
     USER_ID_FIELD := "id";
     USER_ID_CLAIM := "user_id";
     ACCESS_TOKEN_LIFETIME := Some (seconds 300);
     REFRESH_TOKEN_LIFETIME := Some (seconds 86400);
     SLIDING_TOKEN_LIFETIME := Some (seconds 300);
     SLIDING_TOKEN_REFRESH_LIFETIME := Some (seconds 86400);
     SLIDING_TOKEN_REFRESH_EXP_CLAIM := "refresh_exp";
     token_blacklist_installed := true |}.

Definition hex_digits : list Ascii.ascii := String.list_ascii_of_string "0123456789abcdef".

Fixpoint hex_of (digits : nat) (u : N) (acc : string) : string :=
  match digits with
  | O => acc
  | S d => hex_of d (u `div` 16)%N (String (nth (N.to_nat (u `mod` 16)%N) hex_digits Ascii.zero) acc)
  end.

Fixpoint index_of (c : Ascii.ascii) (l : list Ascii.ascii) : option nat :=
  match l with
  | [] => None
  | x :: l' => if Ascii.eqb c x then Some O else S <$> index_of c l'
  end.

Fixpoint parse_hex (s : string) (acc : N) : option N :=
  match s with
  | EmptyString => Some acc
  | String c s' =>
      match index_of c hex_digits with
      | Some d => parse_hex s' (acc * 16 + N.of_nat d)%N
      | None => None
      end
  end.

(** The 32-digit lower-case form only, which is the form of [UUID.hex]. *)
Definition example_UUID_hex (u : uuid) : string := hex_of 32 u "".
Definition example_UUID_of_hex (s : string) : option uuid :=
  if Nat.eqb (String.length s) 32 then parse_hex s 0%N else None.

Definition example_claims (ty : string) (exp : Z) (jti : uuid) : gmap string claim_value :=
  <["token_type" := VStr ty]>
    (<["exp" := VInt exp]>
       (<["jti" := VStr (example_UUID_hex jti)]>
          (<["user_id" := VInt 42]> ∅))).

Definition example_decode (token : string) : string + gmap string claim_value :=
  if String.eqb token "access.1" then inr (example_claims "access" 2000 1%N)
  else if String.eqb token "refresh.2" then inr (example_claims "refresh" 1300 2%N)
  else if String.eqb token "sliding.3" then inr (example_claims "sliding" 2000 3%N)
  else if String.eqb token "refresh.5" then inr (example_claims "refresh" 2000 5%N)
  else if String.eqb token "untyped.4" then
    inr (delete "token_type" (example_claims "access" 2000 4%N))
  else if String.eqb token "access.expired" then inr (example_claims "access" 1000 6%N)
  else inl "Signature verification failed.".

Definition example_encode (p : gmap string claim_value) : string :=
  String.concat "." (map_to_list p).*1.

Definition example_env : environment :=
  {| settings := default_settings;
     token_backend_decode := example_decode;
     token_backend_encode := example_encode;
     UUID_of_hex := example_UUID_of_hex;
     UUID_hex := example_UUID_hex |}.

(** A backend that issues one string and reads it back as [p]. *)
Definition loopback_env (cfg : api_settings) (p : gmap string claim_value) : environment :=
  {| settings := cfg;
     token_backend_decode :=
       λ token, if String.eqb token "signed" then inr p
                else inl "Signature verification failed.";
     token_backend_encode := λ _, "signed";
     UUID_of_hex := example_UUID_of_hex;
     UUID_hex := example_UUID_hex |}.

(** A backend that knows two strings, and reads them as [p1] and [p2]. *)
Definition pair_env (cfg : api_settings) (p1 p2 : gmap string claim_value) : environment :=
  {| settings := cfg;
     token_backend_decode :=
       λ token, if String.eqb token "first" then inr p1
                else if String.eqb token "second" then inr p2
                else inl "Signature verification failed.";
     token_backend_encode := λ _, "first";
     UUID_of_hex := example_UUID_of_hex;
     UUID_hex := example_UUID_hex |}.

(** The identifier 5 is blacklisted. *)
Definition example_world : world :=
  {| w_clock := λ n, seconds (1000 + Z.of_nat n) + 250;
     w_clock_reads := 0;
     w_uuid4 := λ n, (7 + N.of_nat n)%N;
     w_uuid4_draws := 0;
     w_heap := ∅;
     w_blacklisted := {[ 5%N ]};
     w_outstanding := [];
     w_ledger_calls := [] |}.

Definition example_user : gmap string attr_value :=
  <["id" := AInt 42]> (<["username" := AText "alice"]> ∅).

(** * Running the code *)

Arguments set_exp : simpl never.
Arguments check_exp : simpl never.
Arguments Token___init__ : simpl never.
Arguments Token___setitem__ : simpl never.
Arguments Token___getitem__ : simpl never.
Arguments Token___str__ : simpl never.
Arguments check_blacklist : simpl never.
Arguments BlacklistMixin___init__ : simpl never.
Arguments mixin_or_Token___init__ : simpl never.
Arguments SlidingToken___init__ : simpl never.
Arguments construct : simpl never.
Arguments Token_for_user : simpl never.
Arguments access_token : simpl never.
Arguments for_each : simpl never.

Lemma bind_Return {A B} (m : M A) (k : A → M B) w a w' :
  m w = (Return a, w') → (m ≫= k) w = k a w'.
Proof. intros H. unfold mbind, M_bind, bind. by rewrite H. Qed.

Lemma bind_Raise {A B} (m : M A) (k : A → M B) w e w' :
  m w = (Raise e, w') → (m ≫= k) w = (Raise e, w').
Proof. intros H. unfold mbind, M_bind, bind. by rewrite H. Qed.

Lemma read_run {A} self (f : token_object → A) w o :
  w_heap w !! self = Some o → read self f w = (Return (f o), w).
Proof. intros H. unfold read. by rewrite H. Qed.

Lemma update_run self f w o :
  w_heap w !! self = Some o → update self f w = (Return tt, set_object self (f o) w).
Proof. intros H. unfold update. by rewrite H. Qed.

Lemma aware_utcnow_run w : aware_utcnow w = (Return (now w), tick w).
Proof. reflexivity. Qed.

Lemma uuid4_run w : uuid4 w = (Return (next_uuid w), drawn w).
Proof. reflexivity. Qed.

Lemma BlacklistedToken_objects_get_run jti w :
  BlacklistedToken_objects_get jti w
  = (Return (bool_decide (jti ∈ w_blacklisted w)), queried jti w).
Proof. reflexivity. Qed.

Lemma OutstandingToken_objects_create_run row w :
  OutstandingToken_objects_create row w = (Return tt, recorded row w).
Proof. reflexivity. Qed.

Lemma new_object_run c w :
  new_object c w
  = (Return (fresh (dom (w_heap w))), set_object (fresh (dom (w_heap w))) (blank c) w).
Proof. reflexivity. Qed.

Lemma fresh_loc_unused w : w_heap w !! fresh (dom (w_heap w)) = None.
Proof. apply not_elem_of_dom, is_fresh. Qed.

Lemma lookup_set_object l o w : w_heap (set_object l o w) !! l = Some o.
Proof. apply lookup_insert_eq. Qed.

Lemma lookup_set_object_ne l l' o w :
  l ≠ l' → w_heap (set_object l o w) !! l' = w_heap w !! l'.
Proof. intros. by apply lookup_insert_ne. Qed.

Lemma set_object_twice l o1 o2 w :
  set_object l o2 (set_object l o1 w) = set_object l o2 w.
Proof. unfold set_object, set_heap. cbn. by rewrite insert_insert_eq. Qed.

Lemma heap_tick w : w_heap (tick w) = w_heap w.
Proof. reflexivity. Qed.

Lemma heap_drawn w : w_heap (drawn w) = w_heap w.
Proof. reflexivity. Qed.

Lemma heap_queried u w : w_heap (queried u w) = w_heap w.
Proof. reflexivity. Qed.

Lemma heap_recorded r w : w_heap (recorded r w) = w_heap w.
Proof. reflexivity. Qed.

Lemma tick_set_object l o w : tick (set_object l o w) = set_object l o (tick w).
Proof. reflexivity. Qed.

Lemma drawn_set_object l o w : drawn (set_object l o w) = set_object l o (drawn w).
Proof. reflexivity. Qed.

Lemma next_uuid_tick w : next_uuid (tick w) = next_uuid w.
Proof. reflexivity. Qed.

Lemma next_uuid_set_object l o w : next_uuid (set_object l o w) = next_uuid w.
Proof. reflexivity. Qed.

Lemma now_set_object l o w : now (set_object l o w) = now w.
Proof. reflexivity. Qed.

Lemma blacklisted_set_object l o w : w_blacklisted (set_object l o w) = w_blacklisted w.
Proof. reflexivity. Qed.

Lemma blacklisted_tick w : w_blacklisted (tick w) = w_blacklisted w.
Proof. reflexivity. Qed.

Lemma ledger_calls_set_object l o w : w_ledger_calls (set_object l o w) = w_ledger_calls w.
Proof. reflexivity. Qed.

Lemma ledger_calls_tick w : w_ledger_calls (tick w) = w_ledger_calls w.
Proof. reflexivity. Qed.

Lemma ledger_calls_drawn w : w_ledger_calls (drawn w) = w_ledger_calls w.
Proof. reflexivity. Qed.

Lemma ledger_calls_queried u w :
  w_ledger_calls (queried u w) = (w_ledger_calls w ++ [BlacklistedToken_get u])%list.
Proof. reflexivity. Qed.

Lemma clock_reads_set_object l o w : w_clock_reads (set_object l o w) = w_clock_reads w.
Proof. reflexivity. Qed.

Lemma uuid4_draws_set_object l o w : w_uuid4_draws (set_object l o w) = w_uuid4_draws w.
Proof. reflexivity. Qed.

Lemma now_drawn w : now (drawn w) = now w.
Proof. reflexivity. Qed.

Lemma now_queried u w : now (queried u w) = now w.
Proof. reflexivity. Qed.

Lemma next_uuid_queried u w : next_uuid (queried u w) = next_uuid w.
Proof. reflexivity. Qed.

Lemma blacklisted_drawn w : w_blacklisted (drawn w) = w_blacklisted w.
Proof. reflexivity. Qed.

Lemma blacklisted_queried u w : w_blacklisted (queried u w) = w_blacklisted w.
Proof. reflexivity. Qed.

Lemma blacklisted_recorded r w : w_blacklisted (recorded r w) = w_blacklisted w.
Proof. reflexivity. Qed.

Lemma ledger_calls_recorded r w :
  w_ledger_calls (recorded r w) = (w_ledger_calls w ++ [OutstandingToken_create r])%list.
Proof. reflexivity. Qed.

Lemma outstanding_set_object l o w : w_outstanding (set_object l o w) = w_outstanding w.
Proof. reflexivity. Qed.

Lemma outstanding_tick w : w_outstanding (tick w) = w_outstanding w.
Proof. reflexivity. Qed.

Lemma outstanding_drawn w : w_outstanding (drawn w) = w_outstanding w.
Proof. reflexivity. Qed.

Lemma outstanding_queried u w : w_outstanding (queried u w) = w_outstanding w.
Proof. reflexivity. Qed.

Lemma outstanding_recorded r w :
  w_outstanding (recorded r w) = (w_outstanding w ++ [r])%list.
Proof. reflexivity. Qed.

Lemma clock_reads_tick w : w_clock_reads (tick w) = S (w_clock_reads w).
Proof. reflexivity. Qed.

Lemma clock_reads_drawn w : w_clock_reads (drawn w) = w_clock_reads w.
Proof. reflexivity. Qed.

Lemma clock_reads_queried u w : w_clock_reads (queried u w) = w_clock_reads w.
Proof. reflexivity. Qed.

Lemma clock_reads_recorded r w : w_clock_reads (recorded r w) = w_clock_reads w.
Proof. reflexivity. Qed.

Lemma uuid4_draws_tick w : w_uuid4_draws (tick w) = w_uuid4_draws w.
Proof. reflexivity. Qed.

Lemma uuid4_draws_drawn w : w_uuid4_draws (drawn w) = S (w_uuid4_draws w).
Proof. reflexivity. Qed.

Lemma uuid4_draws_queried u w : w_uuid4_draws (queried u w) = w_uuid4_draws w.
Proof. reflexivity. Qed.

Lemma uuid4_draws_recorded r w : w_uuid4_draws (recorded r w) = w_uuid4_draws w.
Proof. reflexivity. Qed.

Lemma heap_set_object l o w : w_heap (set_object l o w) = <[l := o]> (w_heap w).
Proof. reflexivity. Qed.

#[global] Opaque set_object tick drawn queried recorded now next_uuid.

Create Rewrite HintDb world.
#[global] Hint Rewrite heap_tick heap_drawn heap_queried heap_recorded
  tick_set_object drawn_set_object set_object_twice
  next_uuid_tick next_uuid_set_object now_set_object
  blacklisted_set_object blacklisted_tick
  ledger_calls_set_object ledger_calls_tick ledger_calls_drawn ledger_calls_queried
  clock_reads_set_object uuid4_draws_set_object lookup_set_object : world.

(** What a step leaves of the parts of the world other than the heap. *)
Create Rewrite HintDb frame.
#[global] Hint Rewrite now_set_object now_drawn now_queried
  next_uuid_tick next_uuid_set_object next_uuid_queried
  blacklisted_set_object blacklisted_tick blacklisted_drawn blacklisted_queried
  blacklisted_recorded
  ledger_calls_set_object ledger_calls_tick ledger_calls_drawn ledger_calls_queried
  ledger_calls_recorded
  outstanding_set_object outstanding_tick outstanding_drawn outstanding_queried
  outstanding_recorded
  clock_reads_set_object clock_reads_tick clock_reads_drawn clock_reads_queried
  clock_reads_recorded
  uuid4_draws_set_object uuid4_draws_tick uuid4_draws_drawn uuid4_draws_queried
  uuid4_draws_recorded : frame.

(** Looking an object up in a world built by [set_object]. *)
Ltac heap_lookup :=
  autorewrite with world;
  first [ eassumption
        | reflexivity
        | apply lookup_set_object
        | rewrite lookup_set_object_ne by done; heap_lookup ].

Ltac run_prim :=
  first [ apply aware_utcnow_run
        | apply uuid4_run
        | apply BlacklistedToken_objects_get_run
        | apply OutstandingToken_objects_create_run
        | apply new_object_run
        | apply read_run; heap_lookup
        | apply update_run; heap_lookup
        | reflexivity ].

(** One step of a sequence: run its first action, go on with the rest. *)
Ltac mstep := etrans; [ eapply bind_Return; run_prim | cbv beta ].

(** The sequence stops at its first action, which raises. *)
Ltac mraise := etrans; [ eapply bind_Raise; try reflexivity | ].

(** ** What each method does to an object that exists *)

Section run.

Variable env : environment.

Lemma Token___setitem___run self key value w o :
  w_heap w !! self = Some o →
  Token___setitem__ self key value w
  = (Return tt, set_object self (with_payload (<[key := value]> (o_payload o)) o) w).
Proof. intros H. exact (update_run _ _ _ _ H). Qed.

Lemma Token___getitem___run self key w o v :
  w_heap w !! self = Some o → o_payload o !! key = Some v →
  Token___getitem__ self key w = (Return v, w).
Proof. intros H Hv. unfold Token___getitem__. mstep. by rewrite Hv. Qed.

Lemma set_exp_run self claim from_time lt w o d :
  w_heap w !! self = Some o →
  from_option Some (lifetime (settings env) (o_class o)) lt = Some d →
  set_exp env self claim from_time lt w
  = (Return tt,
     set_object self
       (with_payload
          (<[claim := VInt (datetime_to_epoch (default (o_current_time o) from_time + d))]>
             (o_payload o)) o) w).
Proof.
  intros H Hd. unfold set_exp.
  destruct from_time as [t|]; destruct lt as [d'|]; cbn in Hd |- *; simplify_eq.
  - mstep. mstep. by apply Token___setitem___run.
  - mstep. etrans; [eapply bind_Return; mstep; reflexivity|]. cbv beta. rewrite Hd.
    by apply Token___setitem___run.
  - mstep. mstep. by apply Token___setitem___run.
  - mstep. etrans; [eapply bind_Return; mstep; reflexivity|]. cbv beta. rewrite Hd.
    by apply Token___setitem___run.
Qed.

(** [check_exp] never changes the world. *)
Lemma check_exp_run self claim current_time w o :
  w_heap w !! self = Some o →
  check_exp self claim current_time w
  = (match o_payload o !! claim with
     | None => Raise (TokenError ("Token has no '" +:+ claim +:+ "' claim"))
     | Some value =>
         match datetime_from_epoch value with
         | None => Raise TypeError
         | Some claim_time =>
             if bool_decide (claim_time ≤ default (o_current_time o) current_time)%Z
             then Raise (TokenError ("Token '" +:+ claim +:+ "' claim has expired"))
             else Return tt
         end
     end, w).
Proof.
  intros H. unfold check_exp.
  etrans; [eapply bind_Return|cbv beta].
  { instantiate (1 := w). instantiate (1 := default (o_current_time o) current_time).
    destruct current_time; [reflexivity | exact (read_run _ _ _ _ H)]. }
  mstep. destruct (o_payload o !! claim) as [v|]; [|reflexivity].
  destruct (datetime_from_epoch v) as [t|]; [|reflexivity].
  by case_bool_decide.
Qed.

Lemma Token___init___misconfigured self token w o :
  w_heap w !! self = Some o →
  token_type (o_class o) = None ∨ lifetime (settings env) (o_class o) = None →
  Token___init__ env self token w
  = (Raise (TokenError "Cannot create token with no type or lifetime"), w).
Proof.
  intros H Hcfg. unfold Token___init__. mstep.
  destruct Hcfg as [-> | ->]; [reflexivity|].
  by destruct (token_type (o_class o)).
Qed.

Lemma Token___init___decode self token w o ty lt :
  w_heap w !! self = Some o →
  token_type (o_class o) = Some ty →
  lifetime (settings env) (o_class o) = Some lt →
  Token___init__ env self (Some token) w
  = match token_backend_decode env token with
    | inl _ =>
        (Raise (TokenError "Token is invalid or expired"),
         set_object self (with_current_time (now w) (with_token (Some token) o)) (tick w))
    | inr claims =>
        (decoded_checks (settings env) ty (now w) claims,
         set_object self
           {| o_class := o_class o; o_token := Some token;
              o_current_time := now w; o_payload := claims |} (tick w))
    end.
Proof.
  intros H Hty Hlt. unfold Token___init__. mstep. rewrite Hty, Hlt.
  mstep. mstep. mstep. autorewrite with world.
  destruct (token_backend_decode env token) as [reason|claims].
  - mraise. reflexivity.
  - mstep. autorewrite with world.
    etrans; [|]. 
    { unfold mbind, M_bind, bind. erewrite check_exp_run by heap_lookup. reflexivity. }
    unfold decoded_checks. cbn.
    destruct (claims !! "exp") as [v|]; [|reflexivity].
    destruct (datetime_from_epoch v) as [t|]; [|reflexivity].
    case_bool_decide; [reflexivity|].
    mstep. cbn.
    destruct (claims !! TOKEN_TYPE_CLAIM (settings env)) as [v'|]; [|reflexivity].
    destruct (str_ne ty v'); [reflexivity|].
    by case_bool_decide.
Qed.

Lemma Token___init___fresh self w o ty lt :
  w_heap w !! self = Some o →
  token_type (o_class o) = Some ty →
  lifetime (settings env) (o_class o) = Some lt →
  Token___init__ env self None w
  = (Return tt,
     set_object self
       {| o_class := o_class o; o_token := None; o_current_time := now w;
          o_payload := fresh_payload env ty (next_uuid w) (now w) lt |}
       (drawn (tick w))).
Proof.
  intros H Hty Hlt. unfold Token___init__. mstep. rewrite Hty, Hlt.
  mstep. mstep. mstep. mstep. mstep. mstep. autorewrite with world.
  etrans; [eapply set_exp_run; [heap_lookup|reflexivity]|].
  autorewrite with world. reflexivity.
Qed.

(** *** BlacklistMixin *)

Lemma check_blacklist_heap self w r w' :
  check_blacklist env self w = (r, w') → w_heap w' = w_heap w.
Proof.
  unfold check_blacklist, Token___getitem__, read, UUID, mbind, M_bind, bind, raise, mret,
    M_ret, ret.
  intros Hrun. repeat case_match; simplify_eq; try reflexivity.
  all: rewrite BlacklistedToken_objects_get_run in *; simplify_eq; reflexivity.
Qed.

Lemma check_blacklist_run self w o hex jti :
  w_heap w !! self = Some o →
  o_payload o !! "jti" = Some (VStr hex) →
  UUID_of_hex env hex = Some jti →
  check_blacklist env self w
  = (if bool_decide (jti ∈ w_blacklisted w)
     then Raise (TokenError "Token is blacklisted") else Return tt,
     queried jti w).
Proof.
  intros H Hjti Hhex. unfold check_blacklist.
  etrans; [eapply bind_Return; by eapply Token___getitem___run|cbv beta].
  etrans; [eapply bind_Return; cbn; by rewrite Hhex|cbv beta].
  mstep. by case_bool_decide.
Qed.

Lemma mixin_or_Token___init___fresh self w o ty lt :
  w_heap w !! self = Some o →
  token_type (o_class o) = Some ty →
  lifetime (settings env) (o_class o) = Some lt →
  mixin_or_Token___init__ env self None w = Token___init__ env self None w.
Proof.
  intros H Hty Hlt. unfold mixin_or_Token___init__, BlacklistMixin___init__.
  destruct (token_blacklist_installed (settings env)); [|reflexivity].
  erewrite (Token___init___fresh self w o) by done.
  etrans; [eapply bind_Return; by eapply Token___init___fresh|cbv beta].
  mstep. reflexivity.
Qed.

Lemma __init___fresh c self w o ty lt :
  w_heap w !! self = Some o → o_class o = c →
  token_type c = Some ty →
  lifetime (settings env) c = Some lt →
  __init__ env c self None w
  = (Return tt,
     set_object self
       {| o_class := c; o_token := None; o_current_time := now w;
          o_payload := new_payload env c ty (next_uuid w) (now w) lt |}
       (drawn (tick w))).
Proof.
  intros H <- Hty Hlt. unfold __init__, new_payload.
  destruct (o_class o) eqn:Hc.
  - rewrite <- Hc in *. by eapply Token___init___fresh.
  - rewrite <- Hc in Hty, Hlt. unfold SlidingToken___init__.
    etrans; [eapply bind_Return; etrans;
      [by eapply mixin_or_Token___init___fresh | by eapply Token___init___fresh]|cbv beta].
    mstep. mstep. cbn.
    assert (∃ d, from_option Some (Some lt) (SLIDING_TOKEN_REFRESH_LIFETIME (settings env))
                 = Some d
                 ∧ d = default lt (SLIDING_TOKEN_REFRESH_LIFETIME (settings env)))
      as (d & Hd & ->) by (destruct (SLIDING_TOKEN_REFRESH_LIFETIME _); eauto).
    etrans; [eapply set_exp_run; [heap_lookup|]|].
    { cbn. rewrite Hc. cbn. rewrite Hc in Hlt. cbn in Hlt. rewrite Hlt. exact Hd. }
    autorewrite with world. rewrite Hc. reflexivity.
  - rewrite <- Hc in Hty, Hlt.
    erewrite mixin_or_Token___init___fresh by done.
    rewrite <- Hc. by eapply Token___init___fresh.
  - rewrite <- Hc in *. by eapply Token___init___fresh.
Qed.

Lemma mixin_or_Token___init___decode self token w o ty lt :
  w_heap w !! self = Some o →
  token_type (o_class o) = Some ty →
  lifetime (settings env) (o_class o) = Some lt →
  mixin_or_Token___init__ env self (Some token) w
  = match token_backend_decode env token with
    | inl _ =>
        (Raise (TokenError "Token is invalid or expired"),
         set_object self (with_current_time (now w) (with_token (Some token) o)) (tick w))
    | inr claims =>
        match decoded_checks (settings env) ty (now w) claims with
        | Raise e => (Raise e, decoded_world self (o_class o) token claims w)
        | Return _ =>
            if token_blacklist_installed (settings env)
            then check_blacklist env self (decoded_world self (o_class o) token claims w)
            else (Return tt, decoded_world self (o_class o) token claims w)
        end
    end.
Proof.
  intros H Hty Hlt. unfold mixin_or_Token___init__, BlacklistMixin___init__, decoded_world.
  pose proof (Token___init___decode self token w o ty lt H Hty Hlt) as Hinit.
  destruct (token_blacklist_installed (settings env)).
  - destruct (token_backend_decode env token) as [reason|claims].
    + mraise; [exact Hinit|reflexivity].
    + destruct (decoded_checks (settings env) ty (now w) claims) as [[]|e].
      * etrans; [eapply bind_Return; exact Hinit|cbv beta]. mstep. reflexivity.
      * mraise; [exact Hinit|reflexivity].
  - rewrite Hinit. destruct (token_backend_decode env token) as [reason|claims];
      [reflexivity|]. by destruct (decoded_checks _ _ _ _) as [[]|e].
Qed.

Lemma __init___decode c self token w o ty lt :
  w_heap w !! self = Some o → o_class o = c →
  token_type c = Some ty →
  lifetime (settings env) c = Some lt →
  __init__ env c self (Some token) w
  = match token_backend_decode env token with
    | inl _ =>
        (Raise (TokenError "Token is invalid or expired"),
         set_object self (with_current_time (now w) (with_token (Some token) o)) (tick w))
    | inr claims =>
        match decoded_checks (settings env) ty (now w) claims with
        | Raise e => (Raise e, decoded_world self c token claims w)
        | Return _ =>
            if mixin_active env c
            then check_blacklist env self (decoded_world self c token claims w)
            else (Return tt, decoded_world self c token claims w)
        end
    end.
Proof.
  intros H <- Hty Hlt. unfold __init__, mixin_active.
  pose proof (Token___init___decode self token w o ty lt H Hty Hlt) as Hinit.
  pose proof (mixin_or_Token___init___decode self token w o ty lt H Hty Hlt) as Hmix.
  destruct (o_class o) eqn:Hc; cbn [has_BlacklistMixin andb].
  - rewrite Hinit. destruct (token_backend_decode env token) as [reason|claims];
      [reflexivity|]. by destruct (decoded_checks _ _ _ _) as [[]|e].
  - unfold SlidingToken___init__.
    destruct (token_backend_decode env token) as [reason|claims].
    { mraise; [exact Hmix|reflexivity]. }
    destruct (decoded_checks (settings env) ty (now w) claims) as [[]|e].
    2:{ mraise; [exact Hmix|reflexivity]. }
    destruct (token_blacklist_installed (settings env)).
    + destruct (check_blacklist env self (decoded_world self SlidingToken token claims w))
        as [[[]|e] w3] eqn:Hcheck.
      * pose proof (check_blacklist_heap _ _ _ _ Hcheck) as Hheap.
        etrans; [eapply bind_Return; exact Hmix|cbv beta].
        etrans; [eapply bind_Return; apply read_run|cbv beta].
        { rewrite Hheap. unfold decoded_world. heap_lookup. }
        reflexivity.
      * mraise; [exact Hmix|reflexivity].
    + etrans; [eapply bind_Return; exact Hmix|cbv beta].
      unfold decoded_world. mstep. reflexivity.
  - exact Hmix.
  - rewrite Hinit. destruct (token_backend_decode env token) as [reason|claims];
      [reflexivity|]. by destruct (decoded_checks _ _ _ _) as [[]|e].
Qed.

Lemma __init___misconfigured c self token w o :
  w_heap w !! self = Some o → o_class o = c →
  token_type c = None ∨ lifetime (settings env) c = None →
  __init__ env c self token w
  = (Raise (TokenError "Cannot create token with no type or lifetime"), w).
Proof.
  intros H <- Hcfg.
  pose proof (Token___init___misconfigured self token w o H Hcfg) as Hinit.
  assert (mixin_or_Token___init__ env self token w
          = (Raise (TokenError "Cannot create token with no type or lifetime"), w)) as Hmix.
  { unfold mixin_or_Token___init__, BlacklistMixin___init__.
    destruct (token_blacklist_installed (settings env)); [|exact Hinit].
    mraise; [exact Hinit|reflexivity]. }
  unfold __init__. destruct (o_class o); try done.
  unfold SlidingToken___init__. mraise; [exact Hmix|reflexivity].
Qed.

(** [cls(token)]: a new object, then [__init__] on it. *)
Lemma construct_run c token w :
  construct env c token w
  = let self := fresh (dom (w_heap w)) in
    match __init__ env c self token (set_object self (blank c) w) with
    | (Return _, w') => (Return self, w')
    | (Raise e, w') => (Raise e, w')
    end.
Proof.
  unfold construct. mstep. unfold mbind, M_bind, bind.
  by destruct (__init__ _ _ _ _ _) as [[[]|e] w'].
Qed.

End run.

(** * Construction from an encoded token *)

Section decoding.

Variable env : environment.

Lemma str_ne_false ty v : str_ne ty v = false ↔ v = VStr ty.
Proof.
  destruct v as [n|s| |l]; cbn; try (split; [discriminate|intros [=]]).
  rewrite negb_false_iff, String.eqb_eq. split; [by intros ->|by intros [= ->]].
Qed.

Lemma decoded_checks_Return cfg ty t p :
  decoded_checks cfg ty t p = Return tt
  ↔ unexpired p "exp" t ∧ p !! TOKEN_TYPE_CLAIM cfg = Some (VStr ty) ∧ is_Some (p !! "jti").
Proof.
  unfold decoded_checks, unexpired. split.
  - destruct (p !! "exp") as [v|]; [|discriminate].
    destruct (datetime_from_epoch v) as [t'|] eqn:Hv; [|discriminate].
    case_bool_decide; [discriminate|].
    destruct (p !! TOKEN_TYPE_CLAIM cfg) as [v'|]; [|discriminate].
    destruct (str_ne ty v') eqn:Hne; [discriminate|].
    apply str_ne_false in Hne as ->.
    case_bool_decide; [|discriminate].
    intros _. split_and!; [exists v, t'; split_and!; [done..|lia]|done..].
  - intros ((v & t' & -> & -> & Hlt) & -> & Hjti).
    rewrite bool_decide_eq_false_2 by lia.
    assert (str_ne ty (VStr ty) = false) as -> by by apply str_ne_false.
    by rewrite bool_decide_eq_true_2.
Qed.

(** What [cls(token)] comes to on an encoded token. *)
Lemma construct_decode c token w ty lt :
  token_type c = Some ty →
  lifetime (settings env) c = Some lt →
  construct env c (Some token) w
  = let self := fresh (dom (w_heap w)) in
    match token_backend_decode env token with
    | inl _ =>
        (Raise (TokenError "Token is invalid or expired"),
         set_object self (with_current_time (now w) (with_token (Some token) (blank c)))
           (tick w))
    | inr claims =>
        match decoded_checks (settings env) ty (now w) claims with
        | Raise e => (Raise e, decoded_world self c token claims w)
        | Return _ =>
            if mixin_active env c
            then match check_blacklist env self (decoded_world self c token claims w) with
                 | (Return _, w') => (Return self, w')
                 | (Raise e, w') => (Raise e, w')
                 end
            else (Return self, decoded_world self c token claims w)
        end
    end.
Proof.
  intros Hty Hlt. rewrite construct_run. cbv zeta.
  erewrite __init___decode; [|heap_lookup|reflexivity|done..].
  unfold decoded_world. autorewrite with world.
  destruct (token_backend_decode env token) as [reason|claims]; [reflexivity|].
  destruct (decoded_checks _ _ _ _) as [[]|e];
    [destruct (mixin_active env c)|]; autorewrite with world; reflexivity.
Qed.

End decoding.

(** * The claims *)

(** C7 (as amended).  A class whose [token_type] or [lifetime] is [None]
    cannot be instantiated, with or without an encoded token: [__init__]
    raises [TokenError] (the module has no other exception class of its
    own) with the message 'Cannot create token with no type or lifetime',
    and it does so first: the clock is not read, no identifier is drawn, the
    ledger is not called, and the only change to the heap is the new object,
    none of whose attributes is assigned. *)
Theorem construct_misconfigured_TokenError env c token w :
  token_type c = None ∨ lifetime (settings env) c = None →
  ∃ w',
    construct env c token w
    = (Raise (TokenError "Cannot create token with no type or lifetime"), w')
    ∧ w_clock_reads w' = w_clock_reads w
    ∧ w_uuid4_draws w' = w_uuid4_draws w
    ∧ w_ledger_calls w' = w_ledger_calls w
    ∧ w_outstanding w' = w_outstanding w
    ∧ w_heap w' = <[fresh (dom (w_heap w)) := blank c]> (w_heap w).
Proof.
  intros Hcfg. rewrite construct_run. cbv zeta.
  erewrite __init___misconfigured; [|heap_lookup|reflexivity|exact Hcfg].
  eexists. split; [reflexivity|]. by autorewrite with world.
Qed.

Lemma construct_misconfigured_TokenError_witness :
  ∃ w',
    construct example_env (Token_subclass (Some "test") None) (Some "access.1") example_world
    = (Raise (TokenError "Cannot create token with no type or lifetime"), w')
    ∧ w_clock_reads w' = 0%nat
    ∧ w_uuid4_draws w' = 0%nat
    ∧ w_ledger_calls w' = []
    ∧ w_outstanding w' = []
    ∧ w_heap w' = <[fresh (dom (w_heap example_world))
                    := blank (Token_subclass (Some "test") None)]> ∅.
Proof.
  apply (construct_misconfigured_TokenError example_env
           (Token_subclass (Some "test") None) (Some "access.1") example_world).
  right. reflexivity.
Defined.

(** C7, as the claim has it, fails: the exception raised for a class with
    neither attribute is not a ConfigurationError. *)
Lemma construct_misconfigured_not_ConfigurationError :
  ¬ ∃ e w',
      construct example_env (Token_subclass None None) None example_world = (Raise e, w')
      ∧ exn_name e = "ConfigurationError".
Proof.
  intros (e & w' & Hrun & Hname).
  assert ((construct example_env (Token_subclass None None) None example_world).1
          = Raise (TokenError "Cannot create token with no type or lifetime")) as Hout
    by (vm_compute; reflexivity).
  rewrite Hrun in Hout. cbn in Hout. injection Hout as ->. discriminate Hname.
Qed.

(** C1.  Constructing a token of a configured class from an encoded string:
    whatever reason the backend gives for refusing the string, the error is
    the one [TokenError] 'Token is invalid or expired'; when the backend
    returns claims, the checks run in the order exp, type, jti, and the
    first one that fails decides the [TokenError]: no exp claim, exp not
    after the captured time, no type claim, a type claim other than the
    class's [token_type], no jti claim.  Where [Token.__init__] is the whole
    of the construction (the methods of [BlacklistMixin] are not in force
    for the class), a token is returned exactly when the three checks
    pass. *)
Theorem construct_checks_in_order env c token w ty lt :
  token_type c = Some ty →
  lifetime (settings env) c = Some lt →
  let result := (construct env c (Some token) w).1 in
  let type_claim := TOKEN_TYPE_CLAIM (settings env) in
  (∀ reason, token_backend_decode env token = inl reason →
     result = Raise (TokenError "Token is invalid or expired"))
  ∧ (∀ p, token_backend_decode env token = inr p →
       (p !! "exp" = None →
          result = Raise (TokenError "Token has no 'exp' claim"))
       ∧ (∀ value claim_time,
            p !! "exp" = Some value → datetime_from_epoch value = Some claim_time →
            (claim_time ≤ now w)%Z →
            result = Raise (TokenError "Token 'exp' claim has expired"))
       ∧ (unexpired p "exp" (now w) → p !! type_claim = None →
            result = Raise (TokenError "Token has no type"))
       ∧ (unexpired p "exp" (now w) →
          ∀ value, p !! type_claim = Some value → value ≠ VStr ty →
            result = Raise (TokenError "Token has wrong type"))
       ∧ (unexpired p "exp" (now w) → p !! type_claim = Some (VStr ty) →
          p !! "jti" = None →
            result = Raise (TokenError "Token has no id"))
       ∧ (mixin_active env c = false →
            (∃ self, result = Return self)
            ↔ unexpired p "exp" (now w) ∧ p !! type_claim = Some (VStr ty)
              ∧ is_Some (p !! "jti"))).
Proof.
  intros Hty Hlt result type_claim. subst result type_claim.
  rewrite (construct_decode env c token w ty lt Hty Hlt). cbv zeta.
  split.
  { intros reason ->. reflexivity. }
  intros p ->.
  assert (∀ e, decoded_checks (settings env) ty (now w) p = Raise e →
            (match decoded_checks (settings env) ty (now w) p with
             | Raise e => (Raise e, decoded_world (fresh (dom (w_heap w))) c token p w)
             | Return _ =>
                 if mixin_active env c
                 then match check_blacklist env (fresh (dom (w_heap w)))
                              (decoded_world (fresh (dom (w_heap w))) c token p w) with
                      | (Return _, w') => (Return (fresh (dom (w_heap w))), w')
                      | (Raise e, w') => (Raise e, w')
                      end
                 else (Return (fresh (dom (w_heap w))),
                       decoded_world (fresh (dom (w_heap w))) c token p w)
             end).1 = Raise e) as Hraise.
  { intros e ->. reflexivity. }
  split_and!.
  - intros Hexp. apply Hraise. unfold decoded_checks. by rewrite Hexp.
  - intros value claim_time Hexp Htime Hle. apply Hraise. unfold decoded_checks.
    rewrite Hexp, Htime. by rewrite bool_decide_eq_true_2.
  - intros (value & claim_time & Hexp & Htime & Hlt') Htype. apply Hraise.
    unfold decoded_checks. rewrite Hexp, Htime, Htype.
    by rewrite bool_decide_eq_false_2 by lia.
  - intros (value & claim_time & Hexp & Htime & Hlt') value' Htype Hne. apply Hraise.
    unfold decoded_checks. rewrite Hexp, Htime, Htype.
    rewrite bool_decide_eq_false_2 by lia.
    destruct (str_ne ty value') eqn:Hstr; [reflexivity|].
    by apply str_ne_false in Hstr.
  - intros (value & claim_time & Hexp & Htime & Hlt') Htype Hjti. apply Hraise.
    unfold decoded_checks. rewrite Hexp, Htime, Htype, Hjti.
    rewrite bool_decide_eq_false_2 by lia.
    assert (str_ne ty (VStr ty) = false) as -> by by apply str_ne_false.
    rewrite bool_decide_eq_false_2; [reflexivity|]. by intros [? [=]].
  - intros ->. rewrite <- decoded_checks_Return.
    destruct (decoded_checks (settings env) ty (now w) p) as [[]|e]; cbn.
    + split; [done|eauto].
    + split; [by intros [? [=]]|discriminate].
Qed.

Lemma construct_checks_in_order_witness :
  (construct example_env AccessToken (Some "forged") example_world).1
  = Raise (TokenError "Token is invalid or expired")
  ∧ (construct example_env AccessToken (Some "access.expired") example_world).1
    = Raise (TokenError "Token 'exp' claim has expired")
  ∧ (construct example_env AccessToken (Some "untyped.4") example_world).1
    = Raise (TokenError "Token has no type")
  ∧ (construct example_env AccessToken (Some "refresh.2") example_world).1
    = Raise (TokenError "Token has wrong type")
  ∧ ∃ self, (construct example_env AccessToken (Some "access.1") example_world).1
            = Return self.
Proof.
  assert (token_type AccessToken = Some "access") as Hty by reflexivity.
  assert (lifetime (settings example_env) AccessToken = Some (seconds 300)) as Hlt
    by reflexivity.
  assert (∀ p, p !! "exp" = Some (VInt 2000) ∨ p !! "exp" = Some (VInt 1300) →
               unexpired p "exp" (now example_world)) as Hunexpired.
  { intros p [Hexp|Hexp]; eexists _, _; (split_and!; [exact Hexp|reflexivity|]);
      by vm_compute. }
  split_and!.
  - by eapply (proj1 (construct_checks_in_order example_env AccessToken "forged"
                        example_world _ _ Hty Hlt)).
  - eapply (proj2 (construct_checks_in_order example_env AccessToken "access.expired"
                     example_world _ _ Hty Hlt)); [reflexivity..|by vm_compute].
  - eapply (proj2 (construct_checks_in_order example_env AccessToken "untyped.4"
                     example_world _ _ Hty Hlt)); [reflexivity| |reflexivity].
    apply Hunexpired. by left.
  - eapply (proj2 (construct_checks_in_order example_env AccessToken "refresh.2"
                     example_world _ _ Hty Hlt)); [reflexivity| |reflexivity|discriminate].
    apply Hunexpired. by right.
  - eapply (proj2 (construct_checks_in_order example_env AccessToken "access.1"
                     example_world _ _ Hty Hlt)); [reflexivity..|].
    split_and!; [apply Hunexpired; by left|reflexivity|by eexists].
Defined.

(** C2.  [check_exp(claim, current_time)], with [current_time] defaulting to
    the time the token captured, raises a [TokenError] exactly when the
    payload has no such claim or the claim's timestamp is at or before
    [current_time].  A claim equal to [current_time] is rejected, and one
    strictly after it, one second later for instance, is accepted. *)
Theorem check_exp_raises_iff self claim current_time w o :
  w_heap w !! self = Some o →
  let t := default (o_current_time o) current_time in
  let result := (check_exp self claim current_time w).1 in
  ((∃ msg, result = Raise (TokenError msg))
   ↔ (o_payload o !! claim = None
      ∨ ∃ value claim_time,
          o_payload o !! claim = Some value
          ∧ datetime_from_epoch value = Some claim_time ∧ (claim_time ≤ t)%Z))
  ∧ (∀ value, o_payload o !! claim = Some value → datetime_from_epoch value = Some t →
       ∃ msg, result = Raise (TokenError msg))
  ∧ (∀ value, o_payload o !! claim = Some value →
       datetime_from_epoch value = Some (t + seconds 1)%Z →
       result = Return tt)
  ∧ (unexpired (o_payload o) claim t → result = Return tt).
Proof.
  intros Hself t result. subst t result.
  rewrite (check_exp_run self claim current_time w o Hself). cbn [fst].
  assert (unexpired (o_payload o) claim (default (o_current_time o) current_time) →
          match o_payload o !! claim with
          | Some value =>
              match datetime_from_epoch value with
              | Some claim_time =>
                  if bool_decide (claim_time ≤ default (o_current_time o) current_time)%Z
                  then Raise (TokenError ("Token '" +:+ claim +:+ "' claim has expired"))
                  else Return tt
              | None => Raise TypeError
              end
          | None => Raise (TokenError ("Token has no '" +:+ claim +:+ "' claim"))
          end = Return tt) as Haccept.
  { intros (value & claim_time & -> & -> & Hlt).
    by rewrite bool_decide_eq_false_2 by lia. }
  split_and!.
  - split.
    + intros [msg Hmsg]. destruct (o_payload o !! claim) as [value|]; [|by left].
      right. destruct (datetime_from_epoch value) as [claim_time|] eqn:Htime;
        [|discriminate].
      case_bool_decide; [|discriminate]. by exists value, claim_time.
    + intros [->|(value & claim_time & -> & -> & Hle)]; [by eexists|].
      rewrite bool_decide_eq_true_2 by done. by eexists.
  - intros value -> ->. rewrite bool_decide_eq_true_2 by done. by eexists.
  - intros value Hvalue Htime. apply Haccept. eexists value, _.
    split_and!; [done..|]. unfold seconds, microseconds_per_second. lia.
  - exact Haccept.
Qed.

Lemma check_exp_raises_iff_witness :
  let o := {| o_class := AccessToken; o_token := None;
              o_current_time := seconds 1000;
              o_payload := <["exp" := VInt 1000]> (<["nbf" := VInt 1001]> ∅) |} in
  let w := set_heap (<[1%positive := o]> ∅) example_world in
  (∃ msg, (check_exp 1%positive "exp" None w).1 = Raise (TokenError msg))
  ∧ (check_exp 1%positive "nbf" None w).1 = Return tt
  ∧ (∃ msg, (check_exp 1%positive "iat" None w).1 = Raise (TokenError msg))
  ∧ (check_exp 1%positive "exp" (Some (seconds 999)) w).1 = Return tt.
Proof.
  intros o w.
  assert (w_heap w !! 1%positive = Some o) as Hself by reflexivity.
  split_and!.
  - eapply (proj1 (proj2 (check_exp_raises_iff 1%positive "exp" None w o Hself)));
      reflexivity.
  - eapply (proj1 (proj2 (proj2
      (check_exp_raises_iff 1%positive "nbf" None w o Hself)))); reflexivity.
  - apply (proj1 (check_exp_raises_iff 1%positive "iat" None w o Hself)).
    left. reflexivity.
  - eapply (proj1 (proj2 (proj2
      (check_exp_raises_iff 1%positive "exp" (Some (seconds 999)) w o Hself))));
      reflexivity.
Defined.

Lemma check_blacklist_TokenError env self w msg w' :
  check_blacklist env self w = (Raise (TokenError msg), w') →
  msg = "Token is blacklisted".
Proof.
  unfold check_blacklist, Token___getitem__, read, UUID, mbind, M_bind, bind, raise, mret,
    M_ret, ret.
  intros Hrun. repeat case_match; simplify_eq; try reflexivity.
  all: rewrite BlacklistedToken_objects_get_run in *; simplify_eq.
Qed.

Lemma decoded_checks_TokenError cfg ty t p msg :
  decoded_checks cfg ty t p = Raise (TokenError msg) →
  msg ∈ ["Token has no 'exp' claim"; "Token 'exp' claim has expired";
         "Token has no type"; "Token has wrong type"; "Token has no id"].
Proof.
  unfold decoded_checks. intros Hrun.
  repeat case_match; simplify_eq; rewrite !elem_of_cons;
    repeat first [left; reflexivity | right].
Qed.

(** C8 (as amended).  The message of the [TokenError] depends on the check
    that failed and on nothing else.  Any two encoded inputs that the
    backend refuses, whatever reasons it gives, are answered alike, with
    'Token is invalid or expired'.  An input that the backend accepts and a
    later check rejects is answered with the message of that check, which
    is never the backend's. *)
Theorem rejection_message_by_failed_check env c ty lt :
  token_type c = Some ty →
  lifetime (settings env) c = Some lt →
  (∀ token1 token2 w1 w2 reason1 reason2,
     token_backend_decode env token1 = inl reason1 →
     token_backend_decode env token2 = inl reason2 →
     (construct env c (Some token1) w1).1 = (construct env c (Some token2) w2).1
     ∧ (construct env c (Some token1) w1).1
       = Raise (TokenError "Token is invalid or expired"))
  ∧ (∀ token w p msg,
       token_backend_decode env token = inr p →
       (construct env c (Some token) w).1 = Raise (TokenError msg) →
       msg ∈ ["Token has no 'exp' claim"; "Token 'exp' claim has expired";
              "Token has no type"; "Token has wrong type"; "Token has no id";
              "Token is blacklisted"]
       ∧ msg ≠ "Token is invalid or expired").
Proof.
  intros Hty Hlt. split.
  - intros token1 token2 w1 w2 reason1 reason2 H1 H2.
    rewrite !(construct_decode env c _ _ ty lt Hty Hlt). cbv zeta.
    by rewrite H1, H2.
  - intros token w p msg Hp.
    rewrite (construct_decode env c _ _ ty lt Hty Hlt). cbv zeta. rewrite Hp.
    assert (msg ∈ ["Token has no 'exp' claim"; "Token 'exp' claim has expired";
                   "Token has no type"; "Token has wrong type"; "Token has no id";
                   "Token is blacklisted"] →
            msg ≠ "Token is invalid or expired") as Hother.
    { intros Hin ->. rewrite !elem_of_cons, elem_of_nil in Hin. intuition discriminate. }
    destruct (decoded_checks (settings env) ty (now w) p) as [[]|e] eqn:Hchecks.
    + destruct (mixin_active env c); [|discriminate].
      destruct (check_blacklist _ _ _) as [[[]|e] w'] eqn:Hcheck; [discriminate|].
      cbn. intros [= ->]. apply check_blacklist_TokenError in Hcheck as ->.
      assert ("Token is blacklisted"
              ∈ ["Token has no 'exp' claim"; "Token 'exp' claim has expired";
                 "Token has no type"; "Token has wrong type"; "Token has no id";
                 "Token is blacklisted"]) as Hin
        by (rewrite !elem_of_cons; repeat first [left; reflexivity | right]).
      split; [exact Hin|exact (Hother Hin)].
    + cbn. intros [= ->]. apply decoded_checks_TokenError in Hchecks.
      assert (msg ∈ ["Token has no 'exp' claim"; "Token 'exp' claim has expired";
                     "Token has no type"; "Token has wrong type"; "Token has no id";
                     "Token is blacklisted"]) as Hin
        by (rewrite !elem_of_cons, elem_of_nil in Hchecks; rewrite !elem_of_cons;
            intuition auto).
      split; [exact Hin|exact (Hother Hin)].
Qed.

Lemma rejection_message_by_failed_check_witness :
  (construct example_env RefreshToken (Some "forged") example_world).1
  = (construct example_env RefreshToken (Some "truncated") example_world).1
  ∧ "Token has wrong type" ≠ "Token is invalid or expired".
Proof.
  assert (token_type RefreshToken = Some "refresh") as Hty by reflexivity.
  assert (lifetime (settings example_env) RefreshToken = Some (seconds 86400)) as Hlt
    by reflexivity.
  pose proof (rejection_message_by_failed_check example_env RefreshToken _ _ Hty Hlt)
    as [Hsame Hother].
  split.
  - exact (proj1 (Hsame "forged" "truncated" example_world example_world
                    "Signature verification failed." "Signature verification failed."
                    eq_refl eq_refl)).
  - eapply (Hother "access.1" example_world); [reflexivity|by vm_compute].
Defined.

(** C8, as the claim has it, fails: an input that the backend refuses and an
    input without a type claim are both rejected, with different messages. *)
Lemma rejection_messages_differ :
  ¬ ∀ token1 token2 msg1 msg2,
      (construct example_env AccessToken (Some token1) example_world).1
      = Raise (TokenError msg1) →
      (construct example_env AccessToken (Some token2) example_world).1
      = Raise (TokenError msg2) →
      msg1 = msg2.
Proof.
  intros Hsame.
  specialize (Hsame "forged" "untyped.4" "Token is invalid or expired" "Token has no type").
  discriminate Hsame; by vm_compute.
Qed.

(** ** New tokens, and what the decode path leaves in the object *)

Lemma construct_fresh env c w ty lt :
  token_type c = Some ty →
  lifetime (settings env) c = Some lt →
  construct env c None w
  = (Return (fresh (dom (w_heap w))),
     set_object (fresh (dom (w_heap w)))
       {| o_class := c; o_token := None; o_current_time := now w;
          o_payload := new_payload env c ty (next_uuid w) (now w) lt |}
       (drawn (tick w))).
Proof.
  intros Hty Hlt. rewrite construct_run. cbv zeta.
  erewrite __init___fresh; [|heap_lookup|reflexivity|done..].
  by autorewrite with world.
Qed.

Lemma construct_decode_Return env c token w self w' :
  construct env c (Some token) w = (Return self, w') →
  ∃ p, token_backend_decode env token = inr p
       ∧ self = fresh (dom (w_heap w))
       ∧ w_heap w'
         = <[self := {| o_class := c; o_token := Some token;
                        o_current_time := now w; o_payload := p |}]> (w_heap w).
Proof.
  destruct (token_type c) as [ty|] eqn:Hty; [destruct (lifetime (settings env) c) as [lt|] eqn:Hlt|].
  - rewrite (construct_decode env c token w ty lt Hty Hlt). cbv zeta.
    destruct (token_backend_decode env token) as [reason|p]; [discriminate|].
    destruct (decoded_checks _ _ _ _) as [[]|e]; [|discriminate].
    destruct (mixin_active env c).
    + destruct (check_blacklist _ _ _) as [[[]|e] w1] eqn:Hcheck; [|discriminate].
      intros [= <- <-]. exists p. split_and!; [done..|].
      by rewrite (check_blacklist_heap _ _ _ _ _ Hcheck).
    + intros [= <- <-]. by exists p.
  - rewrite construct_run. cbv zeta.
    erewrite __init___misconfigured; [discriminate|heap_lookup|reflexivity|by right].
  - rewrite construct_run. cbv zeta.
    erewrite __init___misconfigured; [discriminate|heap_lookup|reflexivity|by left].
Qed.

(** C10.  When construction from an encoded token succeeds, the payload of
    the token returned is the mapping that the backend's [decode] returned:
    the checks on exp, type, jti and the blacklist read it and leave it as
    it is, and no other object is touched. *)
Theorem decoded_payload_unchanged env c token w self w' :
  construct env c (Some token) w = (Return self, w') →
  ∃ p o,
    token_backend_decode env token = inr p
    ∧ w_heap w' !! self = Some o
    ∧ o_payload o = p
    ∧ o_token o = Some token
    ∧ w_heap w !! self = None
    ∧ ∀ other, other ≠ self → w_heap w' !! other = w_heap w !! other.
Proof.
  intros Hrun. apply construct_decode_Return in Hrun as (p & Hp & -> & Hheap).
  exists p, {| o_class := c; o_token := Some token;
               o_current_time := now w; o_payload := p |}.
  rewrite Hheap. split_and!; [done|apply lookup_insert_eq|done..|apply fresh_loc_unused|].
  intros other Hother. by rewrite lookup_insert_ne.
Qed.

Lemma decoded_payload_unchanged_witness :
  ∃ self w' p o,
    construct example_env SlidingToken (Some "sliding.3") example_world = (Return self, w')
    ∧ token_backend_decode example_env "sliding.3" = inr p
    ∧ w_heap w' !! self = Some o
    ∧ o_payload o = p.
Proof.
  destruct (construct example_env SlidingToken (Some "sliding.3") example_world)
    as [r w'] eqn:Hrun.
  assert (∃ self, r = Return self) as [self ->].
  { replace r with (construct example_env SlidingToken (Some "sliding.3") example_world).1
      by (by rewrite Hrun). by vm_compute; eexists. }
  destruct (decoded_payload_unchanged example_env SlidingToken "sliding.3" example_world
              self w' Hrun) as (p & o & Hp & Ho & Hpayload & _).
  by exists self, w', p, o.
Defined.

(** C5.  With the token_blacklist app installed, an encoded refresh or
    sliding token that passes the checks on signature, exp, type and jti is
    then looked up in the blacklist by the identifier its jti claim denotes:
    one call of the ledger is made, and if the identifier is blacklisted
    construction raises [TokenError] 'Token is blacklisted' instead of
    returning the token.  Constructing a new token (no encoded input) makes
    no call of the ledger. *)
Theorem blacklist_checked_on_decode env c token w lt p hex jti :
  token_blacklist_installed (settings env) = true →
  c = RefreshToken ∨ c = SlidingToken →
  lifetime (settings env) c = Some lt →
  token_backend_decode env token = inr p →
  unexpired p "exp" (now w) →
  p !! TOKEN_TYPE_CLAIM (settings env) = VStr <$> token_type c →
  p !! "jti" = Some (VStr hex) →
  UUID_of_hex env hex = Some jti →
  (∃ w',
     construct env c (Some token) w
     = (if bool_decide (jti ∈ w_blacklisted w)
        then Raise (TokenError "Token is blacklisted")
        else Return (fresh (dom (w_heap w))), w')
     ∧ w_ledger_calls w' = (w_ledger_calls w ++ [BlacklistedToken_get jti])%list)
  ∧ (∃ self w',
       construct env c None w = (Return self, w')
       ∧ w_ledger_calls w' = w_ledger_calls w).
Proof.
  intros Hinstalled Hc Hlt Hp Hexp Htype Hjti Hhex.
  assert (∃ ty, token_type c = Some ty) as [ty Hty]
    by (destruct Hc as [-> | ->]; by eexists).
  assert (mixin_active env c = true) as Hmixin.
  { unfold mixin_active. rewrite Hinstalled. by destruct Hc as [-> | ->]. }
  split.
  - rewrite (construct_decode env c token w ty lt Hty Hlt). cbv zeta.
    rewrite Hp, Hmixin.
    assert (decoded_checks (settings env) ty (now w) p = Return tt) as ->.
    { apply decoded_checks_Return. rewrite Hty in Htype. split_and!; [done..|].
      rewrite Hjti. by eexists. }
    erewrite check_blacklist_run; [|unfold decoded_world; heap_lookup|exact Hjti|exact Hhex].
    unfold decoded_world. autorewrite with world.
    eexists. split; [by case_bool_decide|]. by autorewrite with world.
  - rewrite (construct_fresh env c w ty lt Hty Hlt).
    eexists _, _. split; [reflexivity|]. by autorewrite with world.
Qed.

Lemma blacklist_checked_on_decode_witness :
  (∃ w',
     construct example_env RefreshToken (Some "refresh.5") example_world
     = (Raise (TokenError "Token is blacklisted"), w')
     ∧ w_ledger_calls w' = [BlacklistedToken_get 5%N])
  ∧ (∃ self w',
       construct example_env RefreshToken None example_world = (Return self, w')
       ∧ w_ledger_calls w' = []).
Proof.
  apply (blacklist_checked_on_decode example_env RefreshToken "refresh.5" example_world
           (seconds 86400) (example_claims "refresh" 2000 5%N)
           (example_UUID_hex 5%N) 5%N);
    try reflexivity.
  - by left.
  - eexists _, _. split_and!; [reflexivity..|by vm_compute].
Defined.

(** C6.  A new token (no encoded input) of a configured class has exactly
    the claims type, jti and exp; a new sliding token has, besides these,
    the claim named by SLIDING_TOKEN_REFRESH_EXP_CLAIM, whose value is the
    captured time plus SLIDING_TOKEN_REFRESH_LIFETIME as an epoch.  On the
    decode path nothing is stamped: the payload is the decoded mapping. *)
Theorem fresh_token_claims env c w ty lt :
  token_type c = Some ty →
  lifetime (settings env) c = Some lt →
  let type_claim := TOKEN_TYPE_CLAIM (settings env) in
  let refresh_exp := SLIDING_TOKEN_REFRESH_EXP_CLAIM (settings env) in
  (∃ self w' o,
     construct env c None w = (Return self, w')
     ∧ w_heap w' !! self = Some o
     ∧ (c ≠ SlidingToken →
          dom (o_payload o) = ({[ type_claim; "jti"; "exp" ]} : gset string))
     ∧ (c = SlidingToken →
          dom (o_payload o) = ({[ type_claim; "jti"; "exp"; refresh_exp ]} : gset string)
          ∧ ∀ longer, SLIDING_TOKEN_REFRESH_LIFETIME (settings env) = Some longer →
              o_payload o !! refresh_exp
              = Some (VInt (datetime_to_epoch (now w + longer)))))
  ∧ (∀ token self w',
       construct env c (Some token) w = (Return self, w') →
       ∃ p, token_backend_decode env token = inr p ∧ payload_of w' self = Some p).
Proof.
  intros Hty Hlt type_claim refresh_exp. subst type_claim refresh_exp. split.
  - rewrite (construct_fresh env c w ty lt Hty Hlt).
    eexists _, _, _. split; [reflexivity|]. split; [heap_lookup|]. cbn [o_payload].
    assert (dom (fresh_payload env ty (next_uuid w) (now w) lt)
            = ({[ TOKEN_TYPE_CLAIM (settings env); "jti"; "exp" ]} : gset string)) as Hdom.
    { unfold fresh_payload. rewrite !dom_insert_L, dom_empty_L. set_solver. }
    split.
    + intros Hc. destruct c; try done.
    + intros ->. cbn [new_payload]. split.
      * rewrite dom_insert_L, Hdom. set_solver.
      * intros longer ->. cbn. by rewrite lookup_insert_eq.
  - intros token self w' Hrun.
    apply construct_decode_Return in Hrun as (p & Hp & -> & Hheap).
    exists p. split; [done|]. unfold payload_of. rewrite Hheap.
    by rewrite lookup_insert_eq.
Qed.

Lemma fresh_token_claims_witness :
  ∃ self w' o,
    construct example_env SlidingToken None example_world = (Return self, w')
    ∧ w_heap w' !! self = Some o
    ∧ dom (o_payload o) = ({[ "token_type"; "jti"; "exp"; "refresh_exp" ]} : gset string)
    ∧ o_payload o !! "refresh_exp" = Some (VInt 87400).
Proof.
  destruct (fresh_token_claims example_env SlidingToken example_world "sliding"
              (seconds 300) eq_refl eq_refl)
    as [(self & w' & o & Hrun & Ho & _ & Hsliding) _].
  destruct (Hsliding eq_refl) as [Hdom Hrefresh].
  exists self, w', o. split_and!; [done..|].
  exact (Hrefresh (seconds 86400) eq_refl).
Defined.

(** * for_user *)

Section for_user_run.

Variable env : environment.

Lemma Token_for_user_run c user w user_id ty lt :
  user !! USER_ID_FIELD (settings env) = Some user_id →
  token_type c = Some ty →
  lifetime (settings env) c = Some lt →
  Token_for_user env c user w
  = (Return (fresh (dom (w_heap w))),
     set_object (fresh (dom (w_heap w)))
       {| o_class := c; o_token := None; o_current_time := now w;
          o_payload := <[USER_ID_CLAIM (settings env) := user_id_claim user_id]>
                         (new_payload env c ty (next_uuid w) (now w) lt) |}
       (drawn (tick w))).
Proof.
  intros Huser Hty Hlt. unfold Token_for_user.
  etrans; [eapply bind_Return; unfold getattr; by rewrite Huser|cbv beta].
  etrans; [eapply bind_Return; by eapply construct_fresh|cbv beta].
  etrans; [eapply bind_Return; eapply Token___setitem___run; heap_lookup|cbv beta].
  by autorewrite with world.
Qed.

Lemma BlacklistMixin_for_user_run c user w user_id ty lt exp hex jti :
  user !! USER_ID_FIELD (settings env) = Some user_id →
  token_type c = Some ty →
  lifetime (settings env) c = Some lt →
  let p := <[USER_ID_CLAIM (settings env) := user_id_claim user_id]>
             (new_payload env c ty (next_uuid w) (now w) lt) in
  p !! "exp" = Some (VInt exp) →
  p !! "jti" = Some (VStr hex) →
  UUID_of_hex env hex = Some jti →
  ∃ row,
    BlacklistMixin_for_user env c user w
    = (Return (fresh (dom (w_heap w))),
       recorded row
         (set_object (fresh (dom (w_heap w)))
            {| o_class := c; o_token := None; o_current_time := now w; o_payload := p |}
            (drawn (tick w)))).
Proof.
  intros Huser Hty Hlt p Hexp Hjti Hhex. unfold BlacklistMixin_for_user.
  eexists.
  etrans; [eapply bind_Return; by eapply Token_for_user_run|cbv beta].
  etrans; [eapply bind_Return; eapply Token___getitem___run; [heap_lookup|exact Hexp]
          |cbv beta].
  etrans; [eapply bind_Return; eapply Token___getitem___run; [heap_lookup|exact Hjti]
          |cbv beta].
  etrans; [eapply bind_Return; cbn; by rewrite Hhex|cbv beta].
  etrans; [eapply bind_Return; unfold Token___str__; mstep; reflexivity|cbv beta].
  mstep. cbn [datetime_from_epoch].
  mstep. reflexivity.
Qed.

End for_user_run.

Lemma new_payload_exp env c ty jti t lt :
  ∃ exp, new_payload env c ty jti t lt !! "exp" = Some (VInt exp).
Proof.
  assert (∃ exp, fresh_payload env ty jti t lt !! "exp" = Some (VInt exp)) as [exp Hexp]
    by (eexists; apply lookup_insert_eq).
  destruct c; cbn [new_payload]; try by exists exp.
  destruct (decide (SLIDING_TOKEN_REFRESH_EXP_CLAIM (settings env) = "exp")) as [->|Hne].
  - eexists. apply lookup_insert_eq.
  - exists exp. by rewrite lookup_insert_ne.
Qed.

Lemma new_payload_jti env c ty jti t lt :
  (c = SlidingToken → SLIDING_TOKEN_REFRESH_EXP_CLAIM (settings env) ≠ "jti") →
  new_payload env c ty jti t lt !! "jti" = Some (VStr (UUID_hex env jti)).
Proof.
  intros Hc.
  assert (fresh_payload env ty jti t lt !! "jti" = Some (VStr (UUID_hex env jti))) as Hjti.
  { unfold fresh_payload. rewrite lookup_insert_ne by done. apply lookup_insert_eq. }
  destruct c; cbn [new_payload]; try done.
  rewrite lookup_insert_ne; [done|]. by apply Hc.
Qed.

(** C9.  [for_user(user)] returns a new token of the class, with one claim
    set on it: the claim named by USER_ID_CLAIM, whose value is the user's
    USER_ID_FIELD attribute, kept as it is when it is an integer and turned
    into text otherwise.  Every other claim is that of a new token. *)
Theorem for_user_sets_user_id env c user w user_id ty lt :
  user !! USER_ID_FIELD (settings env) = Some user_id →
  token_type c = Some ty →
  lifetime (settings env) c = Some lt →
  registration_ready env c w →
  ∃ self w0 o0 w' o',
    construct env c None w = (Return self, w0)
    ∧ w_heap w0 !! self = Some o0
    ∧ for_user env c user w = (Return self, w')
    ∧ w_heap w' !! self = Some o'
    ∧ o_class o' = c
    ∧ o_token o' = None
    ∧ (∀ n, user_id = AInt n →
         o_payload o' !! USER_ID_CLAIM (settings env) = Some (VInt n))
    ∧ (∀ s, user_id = AText s →
         o_payload o' !! USER_ID_CLAIM (settings env) = Some (VStr s))
    ∧ (∀ rendering, user_id = AObject rendering →
         o_payload o' !! USER_ID_CLAIM (settings env) = Some (VStr rendering))
    ∧ (∀ claim, claim ≠ USER_ID_CLAIM (settings env) →
         o_payload o' !! claim = o_payload o0 !! claim).
Proof.
  intros Huser Hty Hlt Hready.
  set (self := fresh (dom (w_heap w))).
  set (p0 := new_payload env c ty (next_uuid w) (now w) lt).
  set (p := <[USER_ID_CLAIM (settings env) := user_id_claim user_id]> p0).
  set (o' := {| o_class := c; o_token := None; o_current_time := now w; o_payload := p |}).
  assert (∃ w', for_user env c user w = (Return self, w') ∧ w_heap w' !! self = Some o')
    as (w' & Hrun & Ho').
  { unfold for_user. fold (mixin_active env c).
    destruct (mixin_active env c) eqn:Hmixin.
    - destruct (Hready Hmixin) as (Hexp & Hjti & Hsliding & [jti Hhex]).
      destruct (new_payload_exp env c ty (next_uuid w) (now w) lt) as [exp Hp0exp].
      destruct (BlacklistMixin_for_user_run env c user w user_id ty lt exp
                  (UUID_hex env (next_uuid w)) jti Huser Hty Hlt) as [row Hrow].
      + by rewrite lookup_insert_ne.
      + rewrite lookup_insert_ne by done. by apply new_payload_jti.
      + exact Hhex.
      + eexists. split; [exact Hrow|]. heap_lookup.
    - eexists. split; [by eapply Token_for_user_run|]. heap_lookup. }
  eexists self, _, _, w', o'.
  split; [by eapply construct_fresh|]. split; [heap_lookup|].
  split_and!; [done..| | | |]; unfold o', p; cbn [o_payload].
  - intros n ->. apply lookup_insert_eq.
  - intros s ->. apply lookup_insert_eq.
  - intros rendering ->. apply lookup_insert_eq.
  - intros claim Hclaim. by rewrite lookup_insert_ne.
Qed.

Lemma for_user_sets_user_id_witness :
  ∃ self w' o',
    for_user example_env RefreshToken example_user example_world = (Return self, w')
    ∧ w_heap w' !! self = Some o'
    ∧ o_payload o' !! "user_id" = Some (VInt 42).
Proof.
  destruct (for_user_sets_user_id example_env RefreshToken example_user example_world
              (AInt 42) "refresh" (seconds 86400) eq_refl eq_refl eq_refl)
    as (self & w0 & o0 & w' & o' & _ & _ & Hrun & Ho' & _ & _ & Hint & _).
  - intros _. split_and!; [discriminate..|by vm_compute; eexists].
  - exists self, w', o'. split_and!; [done..|]. exact (Hint 42 eq_refl).
Defined.

(** * access_token *)

Lemma copy_claims_cons no_copy k v items p :
  copy_claims no_copy ((k, v) :: items) p
  = copy_claims no_copy items (if bool_decide (k ∈ no_copy) then p else <[k := v]> p).
Proof. reflexivity. Qed.

Lemma copy_claims_lookup no_copy items p claim :
  NoDup items.*1 →
  copy_claims no_copy items p !! claim
  = if bool_decide (claim ∈ no_copy) then p !! claim
    else match (list_to_map items : gmap string claim_value) !! claim with
         | Some value => Some value
         | None => p !! claim
         end.
Proof.
  revert p. induction items as [|[k v] items IH]; intros p Hnodup.
  { cbn. by case_bool_decide. }
  apply NoDup_cons in Hnodup as [Hk Hnodup]. rewrite copy_claims_cons.
  rewrite IH by done. cbn [list_to_map foldr].
  case_bool_decide as Hclaim.
  - case_bool_decide as Hknc; [done|]. rewrite lookup_insert_ne; [done|]. by intros ->.
  - destruct (decide (k = claim)) as [->|Hne].
    + rewrite lookup_insert_eq.
      rewrite (not_elem_of_list_to_map_1 (M := gmap string)) by done.
      rewrite bool_decide_eq_false_2 by done. by rewrite lookup_insert_eq.
    + rewrite (lookup_insert_ne (list_to_map items)) by done.
      destruct (list_to_map items !! claim); [done|].
      case_bool_decide; [done|]. by rewrite lookup_insert_ne.
Qed.

Lemma for_each_cons {A} (x : A) l body :
  for_each (x :: l) body = (body x;; for_each l body).
Proof. reflexivity. Qed.

Section access_token_run.

Variable env : environment.

Lemma with_payload_same o : with_payload (o_payload o) o = o.
Proof. by destruct o. Qed.

Lemma copy_loop_run access no_copy items w o :
  w_heap w !! access = Some o →
  ∃ w',
    for_each items (λ '(claim, value),
      if bool_decide (claim ∈ no_copy)
      then mret tt
      else Token___setitem__ access claim value) w
    = (Return tt, w')
    ∧ w_heap w'
      = <[access := with_payload (copy_claims no_copy items (o_payload o)) o]> (w_heap w).
Proof.
  revert w o. induction items as [|[k v] items IH]; intros w o Ho.
  { exists w. split; [reflexivity|]. cbn. rewrite with_payload_same.
    by rewrite insert_id. }
  rewrite for_each_cons. cbv beta iota. rewrite copy_claims_cons.
  destruct (decide (k ∈ no_copy)) as [Hin|Hnin];
    [rewrite !bool_decide_eq_true_2 by done|rewrite !bool_decide_eq_false_2 by done].
  - destruct (IH w o Ho) as (w' & Hrun & Hheap). exists w'. split; [|done].
    etrans; [eapply bind_Return; reflexivity|exact Hrun].
  - destruct (IH (set_object access (with_payload (<[k := v]> (o_payload o)) o) w)
                (with_payload (<[k := v]> (o_payload o)) o)) as (w' & Hrun & Hheap);
      [heap_lookup|].
    exists w'. split.
    + etrans; [eapply bind_Return; by eapply Token___setitem___run|exact Hrun].
    + rewrite Hheap. cbn [o_payload with_payload].
      change (w_heap (set_object access (with_payload (<[k:=v]> (o_payload o)) o) w))
        with (<[access := with_payload (<[k:=v]> (o_payload o)) o]> (w_heap w)).
      by rewrite insert_insert_eq.
Qed.

Lemma access_token_run self w o access_lifetime :
  w_heap w !! self = Some o →
  ACCESS_TOKEN_LIFETIME (settings env) = Some access_lifetime →
  ∃ w',
    access_token env self w = (Return (fresh (dom (w_heap w))), w')
    ∧ w_heap w'
      = <[fresh (dom (w_heap w)) :=
            {| o_class := AccessToken; o_token := None; o_current_time := now w;
               o_payload := derived_payload env w (o_payload o) (o_current_time o)
                              access_lifetime |}]> (w_heap w).
Proof.
  intros Hself Hlt.
  assert (fresh (dom (w_heap w)) ≠ self) as Hne.
  { intros Heq. pose proof (fresh_loc_unused w) as Hfresh. rewrite Heq in Hfresh.
    congruence. }
  set (access := fresh (dom (w_heap w))) in *.
  set (a1 := {| o_class := AccessToken; o_token := None; o_current_time := now w;
                o_payload := fresh_payload env "access" (next_uuid w) (now w)
                               access_lifetime |}).
  set (a2 := with_payload
               (<["exp" := VInt (datetime_to_epoch (o_current_time o + access_lifetime))]>
                  (o_payload a1)) a1).
  destruct (copy_loop_run access (no_copy_claims env) (map_to_list (o_payload o))
              (set_object access a2 (drawn (tick w))) a2) as (w' & Hloop & Hheap);
    [heap_lookup|].
  exists w'. split.
  - unfold access_token.
    etrans; [eapply bind_Return;
             exact (construct_fresh env AccessToken w "access" access_lifetime eq_refl Hlt)
            |cbv beta].
    fold access. change (new_payload env AccessToken "access" (next_uuid w) (now w)
                           access_lifetime)
      with (fresh_payload env "access" (next_uuid w) (now w) access_lifetime).
    fold a1.
    mstep.
    etrans; [eapply bind_Return;
             eapply (set_exp_run env access "exp" (Some (o_current_time o)) None _ a1
                       access_lifetime); [heap_lookup|exact Hlt]
            |cbv beta].
    autorewrite with world. cbn [default]. fold a2.
    etrans; [eapply bind_Return; apply read_run; heap_lookup|cbv beta].
    etrans; [eapply bind_Return; exact Hloop|reflexivity].
  - rewrite Hheap.
    change (w_heap (set_object access a2 (drawn (tick w))))
      with (<[access := a2]> (w_heap w)).
    by rewrite insert_insert_eq.
Qed.

End access_token_run.

Lemma derived_payload_lookup env w p current_time access_lifetime claim :
  derived_payload env w p current_time access_lifetime !! claim
  = if bool_decide (claim ∈ no_copy_claims env)
    then (<["exp" := VInt (datetime_to_epoch (current_time + access_lifetime))]>
            (fresh_payload env "access" (next_uuid w) (now w) access_lifetime)) !! claim
    else p !! claim.
Proof.
  unfold derived_payload.
  rewrite copy_claims_lookup by apply NoDup_fst_map_to_list.
  rewrite list_to_map_to_list.
  case_bool_decide as Hclaim; [done|].
  destruct (p !! claim) as [value|]; [done|].
  unfold no_copy_claims in Hclaim. rewrite !not_elem_of_cons in Hclaim.
  destruct Hclaim as (Htype & Hexp & Hjti & _).
  unfold fresh_payload. rewrite !lookup_insert_ne by done. apply lookup_empty.
Qed.

(** C3.  The access token that [access_token] returns for a token whose
    captured time is T has the exp claim [datetime_to_epoch (T + L_a)], L_a
    being ACCESS_TOKEN_LIFETIME: the time is the one captured by the refresh
    token, whereas the access token's own captured time is that of the
    clock when the derivation runs. *)
Theorem access_token_exp_from_refresh_time env self w o access_lifetime :
  w_heap w !! self = Some o →
  ACCESS_TOKEN_LIFETIME (settings env) = Some access_lifetime →
  ∃ access w' a,
    access_token env self w = (Return access, w')
    ∧ w_heap w' !! access = Some a
    ∧ o_class a = AccessToken
    ∧ o_current_time a = now w
    ∧ o_payload a !! "exp"
      = Some (VInt (datetime_to_epoch (o_current_time o + access_lifetime))).
Proof.
  intros Hself Hlt.
  destruct (access_token_run env self w o access_lifetime Hself Hlt) as (w' & Hrun & Hheap).
  eexists _, w', _. split; [exact Hrun|]. rewrite Hheap.
  split; [apply lookup_insert_eq|]. split_and!; [done..|]. cbn [o_payload].
  rewrite derived_payload_lookup. rewrite bool_decide_eq_true_2.
  - apply lookup_insert_eq.
  - unfold no_copy_claims. rewrite !elem_of_cons. auto.
Qed.

Lemma access_token_exp_from_refresh_time_witness :
  ∃ refresh w1 access w2 a,
    construct example_env RefreshToken None example_world = (Return refresh, w1)
    ∧ access_token example_env refresh w1 = (Return access, w2)
    ∧ w_heap w2 !! access = Some a
    ∧ o_current_time a = (seconds 1001 + 250)%Z
    ∧ o_payload a !! "exp" = Some (VInt 1300).
Proof.
  pose proof (construct_fresh example_env RefreshToken example_world "refresh"
                (seconds 86400) eq_refl eq_refl) as Hrefresh.
  match type of Hrefresh with _ = (Return ?l, set_object _ ?o ?w) =>
    destruct (access_token_exp_from_refresh_time example_env l (set_object l o w) o
                (seconds 300) (lookup_set_object l o w) eq_refl)
      as (access & w2 & a & Hrun & Ha & _ & Htime & Hexp);
    exists l, (set_object l o w), access, w2, a
  end.
  split_and!; [done..| |].
  - rewrite Htime. by vm_compute.
  - rewrite Hexp. by vm_compute.
Defined.

(** C4 (as amended).  [access_token] returns a new access token on which
    every claim of the refresh token outside the type claim, exp and jti is
    found with its value unchanged, and which has no other claim besides
    these three.  The three are the access token's own: the hex form of a
    newly drawn identifier as jti, the exp of C3, and the type 'access',
    which differs from a refresh token's type 'refresh'; nothing makes the
    new jti or exp differ from the refresh token's.  The refresh token, like
    every other object, is left as it was. *)
Theorem access_token_copies_claims env self w o access_lifetime :
  w_heap w !! self = Some o →
  ACCESS_TOKEN_LIFETIME (settings env) = Some access_lifetime →
  let type_claim := TOKEN_TYPE_CLAIM (settings env) in
  ∃ access w' a,
    access_token env self w = (Return access, w')
    ∧ access ≠ self
    ∧ w_heap w' !! access = Some a
    ∧ w_heap w' !! self = Some o
    ∧ (∀ other, other ≠ access → w_heap w' !! other = w_heap w !! other)
    ∧ (∀ claim, claim ∉ [type_claim; "exp"; "jti"] →
         o_payload a !! claim = o_payload o !! claim)
    ∧ o_payload a !! "jti" = Some (VStr (UUID_hex env (next_uuid w)))
    ∧ o_payload a !! "exp"
      = Some (VInt (datetime_to_epoch (o_current_time o + access_lifetime)))
    ∧ (type_claim ≠ "exp" → type_claim ≠ "jti" →
         o_payload a !! type_claim = Some (VStr "access")
         ∧ (o_payload o !! type_claim = Some (VStr "refresh") →
              o_payload a !! type_claim ≠ o_payload o !! type_claim)).
Proof.
  intros Hself Hlt type_claim. subst type_claim.
  destruct (access_token_run env self w o access_lifetime Hself Hlt) as (w' & Hrun & Hheap).
  assert (fresh (dom (w_heap w)) ≠ self) as Hne.
  { intros Heq. pose proof (fresh_loc_unused w) as Hfresh. rewrite Heq in Hfresh.
    congruence. }
  assert (∀ claim, claim ∈ no_copy_claims env →
            bool_decide (claim ∈ no_copy_claims env) = true) as Hin
    by (intros; by apply bool_decide_eq_true_2).
  eexists _, w', _. split; [exact Hrun|]. rewrite Hheap.
  split; [exact Hne|]. split; [apply lookup_insert_eq|].
  split; [by rewrite lookup_insert_ne|].
  split; [intros other Hother; by rewrite lookup_insert_ne|].
  cbn [o_payload]. split_and!.
  - intros claim Hclaim. rewrite derived_payload_lookup.
    by rewrite bool_decide_eq_false_2.
  - rewrite derived_payload_lookup, Hin
      by (unfold no_copy_claims; rewrite !elem_of_cons; auto).
    unfold fresh_payload. rewrite !lookup_insert_ne by done. apply lookup_insert_eq.
  - rewrite derived_payload_lookup, Hin
      by (unfold no_copy_claims; rewrite !elem_of_cons; auto).
    apply lookup_insert_eq.
  - intros Hexp Hjti.
    assert (derived_payload env w (o_payload o) (o_current_time o) access_lifetime
              !! TOKEN_TYPE_CLAIM (settings env) = Some (VStr "access")) as Hty.
    { rewrite derived_payload_lookup, Hin
        by (unfold no_copy_claims; rewrite !elem_of_cons; auto).
      unfold fresh_payload. rewrite !lookup_insert_ne by done. apply lookup_insert_eq. }
    split; [exact Hty|]. intros Hrefresh. rewrite Hty, Hrefresh. discriminate.
Qed.

Lemma access_token_copies_claims_witness :
  ∃ refresh w1 access w2 a,
    construct example_env RefreshToken (Some "refresh.2") example_world = (Return refresh, w1)
    ∧ access_token example_env refresh w1 = (Return access, w2)
    ∧ w_heap w2 !! access = Some a
    ∧ payload_of w2 refresh = Some (example_claims "refresh" 1300 2%N)
    ∧ o_payload a !! "user_id" = Some (VInt 42)
    ∧ o_payload a !! "token_type" = Some (VStr "access").
Proof.
  destruct (construct example_env RefreshToken (Some "refresh.2") example_world)
    as [r w1] eqn:Hconstruct.
  assert (∃ refresh, r = Return refresh
                     ∧ w_heap w1 !! refresh
                       = Some {| o_class := RefreshToken; o_token := Some "refresh.2";
                                 o_current_time := now example_world;
                                 o_payload := example_claims "refresh" 1300 2%N |})
    as (refresh & -> & Hrefresh).
  { replace r with (construct example_env RefreshToken (Some "refresh.2") example_world).1
      by (by rewrite Hconstruct).
    replace w1 with (construct example_env RefreshToken (Some "refresh.2") example_world).2
      by (by rewrite Hconstruct).
    eexists. split; by vm_compute. }
  destruct (access_token_copies_claims example_env refresh w1 _ (seconds 300)
              Hrefresh eq_refl)
    as (access & w2 & a & Hrun & _ & Ha & Hself & _ & Hcopy & _ & _ & Htype).
  exists refresh, w1, access, w2, a. split_and!; [done..| | |].
  - unfold payload_of. by rewrite Hself.
  - rewrite Hcopy; [reflexivity|]. rewrite !not_elem_of_cons. split_and!; try done.
    apply not_elem_of_nil.
  - by apply Htype.
Defined.

(** C4, as the claim has it, fails on exp: a refresh token that expires at
    second 1300 and is presented 300 seconds before that, the lifetime of an
    access token, yields an access token with the same exp. *)
Lemma derived_exp_equals_refresh_exp :
  ((refresh ← construct example_env RefreshToken (Some "refresh.2");
    access ← access_token example_env refresh;
    refresh_exp ← Token___getitem__ refresh "exp";
    access_exp ← Token___getitem__ access "exp";
    mret (refresh_exp, access_exp)) example_world).1
  = Return (VInt 1300, VInt 1300).
Proof. by vm_compute. Qed.

(** * Further properties of the code *)

(** ** Claim access: [__getitem__], [__setitem__], [__delitem__], [__contains__] *)

Lemma Token___contains___run self key w o :
  w_heap w !! self = Some o →
  Token___contains__ self key w = (Return (bool_decide (is_Some (o_payload o !! key))), w).
Proof. intros Hself. unfold Token___contains__. mstep. reflexivity. Qed.

Lemma Token___getitem___missing self key w o :
  w_heap w !! self = Some o → o_payload o !! key = None →
  Token___getitem__ self key w = (Raise (KeyError key), w).
Proof. intros Hself Hkey. unfold Token___getitem__. mstep. by rewrite Hkey. Qed.

(** X1.  After [token[key] = value], [token[key]] is [value] and
    [key in token] holds; every other claim reads as before, and no other
    object is touched. *)
Theorem setitem_then_getitem self key value w o :
  w_heap w !! self = Some o →
  ∃ w',
    Token___setitem__ self key value w = (Return tt, w')
    ∧ Token___getitem__ self key w' = (Return value, w')
    ∧ Token___contains__ self key w' = (Return true, w')
    ∧ (∀ other_key, other_key ≠ key →
         (Token___getitem__ self other_key w').1 = (Token___getitem__ self other_key w).1)
    ∧ (∀ other, other ≠ self → w_heap w' !! other = w_heap w !! other).
Proof.
  intros Hself. eexists. split; [by apply Token___setitem___run|].
  set (o' := with_payload (<[key := value]> (o_payload o)) o).
  assert (w_heap (set_object self o' w) !! self = Some o') as Hself' by heap_lookup.
  split_and!.
  - eapply Token___getitem___run; [exact Hself'|]. apply lookup_insert_eq.
  - rewrite (Token___contains___run self key _ o' Hself'). cbn [o_payload o' with_payload].
    rewrite lookup_insert_eq. by rewrite bool_decide_eq_true_2.
  - intros other_key Hother.
    destruct (o_payload o !! other_key) as [v|] eqn:Hv.
    + rewrite (Token___getitem___run self other_key _ o' v Hself')
        by (cbn; by rewrite lookup_insert_ne).
      by rewrite (Token___getitem___run self other_key w o v Hself Hv).
    + rewrite (Token___getitem___missing self other_key _ o' Hself')
        by (cbn; by rewrite lookup_insert_ne).
      by rewrite (Token___getitem___missing self other_key w o Hself Hv).
  - intros other Hother. by rewrite lookup_set_object_ne.
Qed.

Lemma setitem_then_getitem_witness :
  ∃ token w1 w2,
    construct example_env AccessToken None example_world = (Return token, w1)
    ∧ Token___setitem__ token "scope" (VStr "read") w1 = (Return tt, w2)
    ∧ Token___getitem__ token "scope" w2 = (Return (VStr "read"), w2).
Proof.
  pose proof (construct_fresh example_env AccessToken example_world "access"
                (seconds 300) eq_refl eq_refl) as Hfresh.
  match type of Hfresh with _ = (Return ?l, set_object _ ?o ?w) =>
    destruct (setitem_then_getitem l "scope" (VStr "read") (set_object l o w) o
                (lookup_set_object l o w)) as (w2 & Hset & Hget & _);
    exists l, (set_object l o w), w2
  end.
  by split_and!.
Defined.

(** X2.  [del token[key]] raises [KeyError] on a claim that is not there and
    changes nothing; on a claim that is there it removes it, so that
    [token[key]] raises [KeyError] and [key in token] is false afterwards,
    and every other claim reads as before. *)
Theorem delitem_removes_claim self key w o :
  w_heap w !! self = Some o →
  (o_payload o !! key = None →
     Token___delitem__ self key w = (Raise (KeyError key), w))
  ∧ (is_Some (o_payload o !! key) →
       ∃ w',
         Token___delitem__ self key w = (Return tt, w')
         ∧ Token___getitem__ self key w' = (Raise (KeyError key), w')
         ∧ Token___contains__ self key w' = (Return false, w')
         ∧ (∀ other_key, other_key ≠ key →
              (Token___getitem__ self other_key w').1
              = (Token___getitem__ self other_key w).1)
         ∧ (∀ other, other ≠ self → w_heap w' !! other = w_heap w !! other)).
Proof.
  intros Hself. split.
  - intros Hkey. unfold Token___delitem__. mstep. by rewrite Hkey.
  - intros [v Hkey].
    set (o' := with_payload (delete key (o_payload o)) o).
    exists (set_object self o' w).
    assert (w_heap (set_object self o' w) !! self = Some o') as Hself' by heap_lookup.
    split_and!.
    + unfold Token___delitem__. mstep. rewrite Hkey. exact (update_run _ _ _ _ Hself).
    + eapply Token___getitem___missing; [exact Hself'|]. apply lookup_delete_eq.
    + rewrite (Token___contains___run self key _ o' Hself'). cbn [o_payload o' with_payload].
      rewrite lookup_delete_eq. rewrite bool_decide_eq_false_2; [done|]. by intros [? [=]].
    + intros other_key Hother.
      destruct (o_payload o !! other_key) as [v'|] eqn:Hv.
      * rewrite (Token___getitem___run self other_key _ o' v' Hself')
          by (cbn; by rewrite lookup_delete_ne).
        by rewrite (Token___getitem___run self other_key w o v' Hself Hv).
      * rewrite (Token___getitem___missing self other_key _ o' Hself')
          by (cbn; by rewrite lookup_delete_ne).
        by rewrite (Token___getitem___missing self other_key w o Hself Hv).
    + intros other Hother. by rewrite lookup_set_object_ne.
Qed.

Lemma delitem_removes_claim_witness :
  ∃ token w1 w2,
    construct example_env AccessToken None example_world = (Return token, w1)
    ∧ Token___delitem__ token "nonce" w1 = (Raise (KeyError "nonce"), w1)
    ∧ Token___delitem__ token "jti" w1 = (Return tt, w2)
    ∧ Token___contains__ token "jti" w2 = (Return false, w2).
Proof.
  pose proof (construct_fresh example_env AccessToken example_world "access"
                (seconds 300) eq_refl eq_refl) as Hfresh.
  match type of Hfresh with _ = (Return ?l, set_object _ ?o ?w) =>
    destruct (delitem_removes_claim l "nonce" (set_object l o w) o
                (lookup_set_object l o w)) as [Hmissing _];
    destruct (delitem_removes_claim l "jti" (set_object l o w) o
                (lookup_set_object l o w)) as [_ Hpresent];
    destruct Hpresent as (w2 & Hdel & _ & Hcontains & _); [by vm_compute; eexists|];
    exists l, (set_object l o w), w2
  end.
  split_and!; [done| |done..]. apply Hmissing. by vm_compute.
Defined.

(** X3.  [key in token] and [token[key]] agree and only read: the first is
    true exactly when the second returns a value, false exactly when it
    raises [KeyError], and neither changes anything. *)
Theorem contains_agrees_with_getitem self key w o :
  w_heap w !! self = Some o →
  ∃ b,
    Token___contains__ self key w = (Return b, w)
    ∧ (b = true ↔ ∃ value, Token___getitem__ self key w = (Return value, w))
    ∧ (b = false ↔ Token___getitem__ self key w = (Raise (KeyError key), w)).
Proof.
  intros Hself. eexists. split; [by apply Token___contains___run|].
  destruct (o_payload o !! key) as [v|] eqn:Hkey.
  - rewrite (Token___getitem___run self key w o v Hself Hkey).
    rewrite bool_decide_eq_true_2 by done. split; split; try done. by exists v.
  - rewrite (Token___getitem___missing self key w o Hself Hkey).
    rewrite bool_decide_eq_false_2 by (by intros [? [=]]).
    split; split; try done. by intros [? [=]].
Qed.

Lemma contains_agrees_with_getitem_witness :
  ∃ token w1,
    construct example_env AccessToken None example_world = (Return token, w1)
    ∧ Token___contains__ token "exp" w1 = (Return true, w1)
    ∧ Token___getitem__ token "exp" w1 = (Return (VInt 1300), w1).
Proof.
  pose proof (construct_fresh example_env AccessToken example_world "access"
                (seconds 300) eq_refl eq_refl) as Hfresh.
  match type of Hfresh with _ = (Return ?l, set_object _ ?o ?w) =>
    destruct (contains_agrees_with_getitem l "exp" (set_object l o w) o
                (lookup_set_object l o w)) as (b & Hcontains & Htrue & _);
    exists l, (set_object l o w);
    assert (Token___getitem__ l "exp" (set_object l o w)
            = (Return (VInt 1300), set_object l o w)) as Hget
      by (eapply Token___getitem___run; [apply lookup_set_object|by vm_compute])
  end.
  split_and!; [done| |done].
  rewrite Hcontains. f_equal. f_equal. apply Htrue. by eexists.
Defined.

(** ** New tokens *)

Lemma fresh_payload_lookups env ty jti t lt :
  TOKEN_TYPE_CLAIM (settings env) ≠ "exp" →
  TOKEN_TYPE_CLAIM (settings env) ≠ "jti" →
  fresh_payload env ty jti t lt !! TOKEN_TYPE_CLAIM (settings env) = Some (VStr ty)
  ∧ fresh_payload env ty jti t lt !! "jti" = Some (VStr (UUID_hex env jti))
  ∧ fresh_payload env ty jti t lt !! "exp" = Some (VInt (datetime_to_epoch (t + lt))).
Proof.
  intros Hexp Hjti. unfold fresh_payload. split_and!.
  - rewrite !lookup_insert_ne by done. apply lookup_insert_eq.
  - rewrite lookup_insert_ne by done. apply lookup_insert_eq.
  - apply lookup_insert_eq.
Qed.

Lemma new_payload_lookups env c ty jti t lt :
  distinct_claim_names env c →
  new_payload env c ty jti t lt !! TOKEN_TYPE_CLAIM (settings env) = Some (VStr ty)
  ∧ new_payload env c ty jti t lt !! "jti" = Some (VStr (UUID_hex env jti))
  ∧ new_payload env c ty jti t lt !! "exp" = Some (VInt (datetime_to_epoch (t + lt))).
Proof.
  intros (Hexp & Hjti & Hsliding).
  pose proof (fresh_payload_lookups env ty jti t lt Hexp Hjti) as Hfresh.
  destruct c; cbn [new_payload]; try exact Hfresh.
  destruct (Hsliding eq_refl) as (H1 & H2 & H3).
  by rewrite !lookup_insert_ne by done.
Qed.

(** X4.  A new token of a configured class, the settings naming the claims
    apart: the type claim is the class's [token_type], jti is the hex form
    of the identifier drawn, exp is the epoch of the captured time plus the
    class's lifetime, the captured time is the clock's, and [token] is
    [None].  Construction reads the clock once, draws one identifier, makes
    no call of the ledger and touches no other object. *)
Theorem fresh_token_values env c w ty lt :
  token_type c = Some ty →
  lifetime (settings env) c = Some lt →
  distinct_claim_names env c →
  ∃ self w' o,
    construct env c None w = (Return self, w')
    ∧ w_heap w' !! self = Some o
    ∧ o_class o = c ∧ o_token o = None ∧ o_current_time o = now w
    ∧ o_payload o !! TOKEN_TYPE_CLAIM (settings env) = Some (VStr ty)
    ∧ o_payload o !! "jti" = Some (VStr (UUID_hex env (next_uuid w)))
    ∧ o_payload o !! "exp" = Some (VInt (datetime_to_epoch (now w + lt)))
    ∧ w_clock_reads w' = S (w_clock_reads w)
    ∧ w_uuid4_draws w' = S (w_uuid4_draws w)
    ∧ w_ledger_calls w' = w_ledger_calls w
    ∧ w_outstanding w' = w_outstanding w
    ∧ w_heap w !! self = None
    ∧ (∀ other, other ≠ self → w_heap w' !! other = w_heap w !! other).
Proof.
  intros Hty Hlt Hnames. rewrite (construct_fresh env c w ty lt Hty Hlt).
  destruct (new_payload_lookups env c ty (next_uuid w) (now w) lt Hnames)
    as (Htype & Hjti & Hexp).
  eexists _, _, _. split; [reflexivity|]. split; [heap_lookup|].
  cbn [o_class o_token o_current_time o_payload]. autorewrite with frame.
  split_and!; try done.
  - apply fresh_loc_unused.
  - intros other Hother. rewrite lookup_set_object_ne by done. by autorewrite with world.
Qed.

Lemma fresh_token_values_witness :
  ∃ self w' o,
    construct example_env SlidingToken None example_world = (Return self, w')
    ∧ w_heap w' !! self = Some o
    ∧ o_payload o !! "token_type" = Some (VStr "sliding")
    ∧ o_payload o !! "exp" = Some (VInt 1300)
    ∧ w_clock_reads w' = 1%nat.
Proof.
  destruct (fresh_token_values example_env SlidingToken example_world "sliding"
              (seconds 300) eq_refl eq_refl)
    as (self & w' & o & Hrun & Ho & _ & _ & _ & Htype & _ & Hexp & Hreads & _).
  - split_and!; [discriminate..|]. intros _. by split_and!.
  - exists self, w', o. split_and!; [done..| |done]. rewrite Hexp. by vm_compute.
Defined.

(** X5.  A new sliding token whose refresh lifetime is at least its
    lifetime has a refresh claim that is not before its exp. *)
Theorem sliding_refresh_exp_not_before_exp env w lt longer :
  SLIDING_TOKEN_LIFETIME (settings env) = Some lt →
  SLIDING_TOKEN_REFRESH_LIFETIME (settings env) = Some longer →
  (lt ≤ longer)%Z →
  distinct_claim_names env SlidingToken →
  ∃ self w' o exp refresh_exp,
    construct env SlidingToken None w = (Return self, w')
    ∧ w_heap w' !! self = Some o
    ∧ o_payload o !! "exp" = Some (VInt exp)
    ∧ o_payload o !! SLIDING_TOKEN_REFRESH_EXP_CLAIM (settings env) = Some (VInt refresh_exp)
    ∧ (exp ≤ refresh_exp)%Z.
Proof.
  intros Hlt Hlonger Hle Hnames.
  rewrite (construct_fresh env SlidingToken w "sliding" lt eq_refl Hlt).
  destruct (new_payload_lookups env SlidingToken "sliding" (next_uuid w) (now w) lt Hnames)
    as (_ & _ & Hexp).
  eexists _, _, _, _, _. split; [reflexivity|]. split; [heap_lookup|].
  cbn [o_payload]. split; [exact Hexp|]. split.
  - cbn [new_payload]. apply lookup_insert_eq.
  - rewrite Hlonger. cbn [default from_option id].
    unfold datetime_to_epoch, microseconds_per_second.
    apply Z.div_le_mono; lia.
Qed.

Lemma sliding_refresh_exp_not_before_exp_witness :
  ∃ self w' o,
    construct example_env SlidingToken None example_world = (Return self, w')
    ∧ w_heap w' !! self = Some o
    ∧ o_payload o !! "exp" = Some (VInt 1300)
    ∧ o_payload o !! "refresh_exp" = Some (VInt 87400).
Proof.
  destruct (sliding_refresh_exp_not_before_exp example_env example_world
              (seconds 300) (seconds 86400) eq_refl eq_refl)
    as (self & w' & o & exp & refresh_exp & Hrun & Ho & Hexp & Hrefresh & _).
  - by vm_compute.
  - split_and!; [discriminate..|]. intros _. by split_and!.
  - pose proof (construct_fresh example_env SlidingToken example_world "sliding"
                  (seconds 300) eq_refl eq_refl) as Hfresh.
    rewrite Hfresh in Hrun. injection Hrun as <- <-.
    rewrite lookup_set_object in Ho. injection Ho as <-.
    eexists _, _, _. split; [reflexivity|]. split; [apply lookup_set_object|].
    split; by vm_compute.
Defined.

(** ** [set_exp] and [check_exp] together *)

(** X6.  A claim stamped by [set_exp] with the lifetime [d] (the one given,
    or the class's) counts whole seconds: [check_exp] on it at the time [t]
    passes exactly when [t] is before the stamped second.  So it passes when
    the expiry is at least one second after [t], and fails with the
    'has expired' error when the expiry is not later than [t]; a token
    stamped with a lifetime that is not positive is born expired. *)
Theorem set_exp_then_check_exp env self claim from_time lt current_time w o d :
  w_heap w !! self = Some o →
  from_option Some (lifetime (settings env) (o_class o)) lt = Some d →
  let expiry := (default (o_current_time o) from_time + d)%Z in
  let t := default (o_current_time o) current_time in
  let result :=
    ((set_exp env self claim from_time lt;; check_exp self claim current_time) w).1 in
  (result = Return tt ↔ (t < seconds (datetime_to_epoch expiry))%Z)
  ∧ ((t + seconds 1 ≤ expiry)%Z → result = Return tt)
  ∧ ((expiry ≤ t)%Z →
       result = Raise (TokenError ("Token '" +:+ claim +:+ "' claim has expired"))).
Proof.
  intros Hself Hd expiry t result.
  assert (result
          = if bool_decide (seconds (datetime_to_epoch expiry) ≤ t)%Z
            then Raise (TokenError ("Token '" +:+ claim +:+ "' claim has expired"))
            else Return tt) as ->.
  { subst result.
    erewrite bind_Return; [|by eapply set_exp_run].
    erewrite check_exp_run by heap_lookup.
    cbn [fst o_payload with_payload o_current_time]. rewrite lookup_insert_eq.
    reflexivity. }
  assert (seconds (datetime_to_epoch expiry) ≤ expiry
          ∧ expiry < seconds (datetime_to_epoch expiry) + seconds 1)%Z as [Hfloor Hceil].
  { unfold seconds, datetime_to_epoch, microseconds_per_second.
    pose proof (Z.div_mod expiry 1000000 ltac:(lia)).
    pose proof (Z.mod_pos_bound expiry 1000000 ltac:(lia)). lia. }
  split_and!.
  - case_bool_decide; split; try done; lia.
  - intros Hlater. rewrite bool_decide_eq_false_2; [done|].
    unfold seconds, microseconds_per_second in *. lia.
  - intros Hpast. rewrite bool_decide_eq_true_2; [done|]. lia.
Qed.

Lemma set_exp_then_check_exp_witness :
  ∃ token w1,
    construct example_env AccessToken None example_world = (Return token, w1)
    ∧ ((set_exp example_env token "exp" None (Some (seconds (-1)));;
        check_exp token "exp" None) w1).1
      = Raise (TokenError "Token 'exp' claim has expired")
    ∧ ((set_exp example_env token "nbf" None None;;
        check_exp token "nbf" None) w1).1
      = Return tt.
Proof.
  pose proof (construct_fresh example_env AccessToken example_world "access"
                (seconds 300) eq_refl eq_refl) as Hfresh.
  match type of Hfresh with _ = (Return ?l, set_object _ ?o ?w) =>
    pose proof (set_exp_then_check_exp example_env l "exp" None (Some (seconds (-1))) None
                  (set_object l o w) o (seconds (-1)) (lookup_set_object l o w) eq_refl)
      as (_ & _ & Hpast);
    pose proof (set_exp_then_check_exp example_env l "nbf" None None None
                  (set_object l o w) o (seconds 300) (lookup_set_object l o w) eq_refl)
      as (_ & Hlater & _);
    exists l, (set_object l o w)
  end.
  split_and!; [done| |].
  - apply Hpast. by vm_compute.
  - apply Hlater. by vm_compute.
Defined.

(** ** Encoding a token and decoding it again *)

Lemma construct_accepts env c token w ty lt p :
  token_type c = Some ty →
  lifetime (settings env) c = Some lt →
  token_backend_decode env token = inr p →
  unexpired p "exp" (now w) →
  p !! TOKEN_TYPE_CLAIM (settings env) = Some (VStr ty) →
  is_Some (p !! "jti") →
  (mixin_active env c = true →
     ∃ hex jti, p !! "jti" = Some (VStr hex) ∧ UUID_of_hex env hex = Some jti
                ∧ jti ∉ w_blacklisted w) →
  ∃ w',
    construct env c (Some token) w = (Return (fresh (dom (w_heap w))), w')
    ∧ w_heap w'
      = <[fresh (dom (w_heap w)) :=
            {| o_class := c; o_token := Some token;
               o_current_time := now w; o_payload := p |}]> (w_heap w).
Proof.
  intros Hty Hlt Hp Hexp Htype Hjti Hmixin.
  rewrite (construct_decode env c token w ty lt Hty Hlt). cbv zeta. rewrite Hp.
  assert (decoded_checks (settings env) ty (now w) p = Return tt) as ->
    by by apply decoded_checks_Return.
  destruct (mixin_active env c).
  - destruct (Hmixin eq_refl) as (hex & jti & Hhex & Hparse & Hfree).
    erewrite check_blacklist_run; [|unfold decoded_world; heap_lookup|exact Hhex|exact Hparse].
    unfold decoded_world. autorewrite with world.
    rewrite bool_decide_eq_false_2 by done.
    eexists. split; [reflexivity|]. by autorewrite with world.
  - eexists. split; [reflexivity|]. unfold decoded_world. by autorewrite with world.
Qed.

Lemma construct_rejects env c token w ty lt p e :
  token_type c = Some ty →
  lifetime (settings env) c = Some lt →
  token_backend_decode env token = inr p →
  decoded_checks (settings env) ty (now w) p = Raise e →
  (construct env c (Some token) w).1 = Raise e.
Proof.
  intros Hty Hlt Hp Hchecks.
  rewrite (construct_decode env c token w ty lt Hty Hlt). cbv zeta.
  by rewrite Hp, Hchecks.
Qed.

Lemma Token___str___run env self w o :
  w_heap w !! self = Some o →
  Token___str__ env self w = (Return (token_backend_encode env (o_payload o)), w).
Proof. intros Hself. unfold Token___str__. mstep. reflexivity. Qed.

(** X7.  Round trip.  A new token of a configured class, encoded with
    [str] and given back to the class before its exp, is accepted, and the
    token constructed has the same payload, provided that the settings name
    the claims apart, that the backend reads back what it issued, and, where
    the methods of [BlacklistMixin] are in force, that the identifier drawn
    is not blacklisted. *)
Theorem encode_decode_round_trip env c w ty lt :
  token_type c = Some ty →
  lifetime (settings env) c = Some lt →
  distinct_claim_names env c →
  let p := new_payload env c ty (next_uuid w) (now w) lt in
  token_backend_decode env (token_backend_encode env p) = inr p →
  (now (tick w) < seconds (datetime_to_epoch (now w + lt)))%Z →
  (mixin_active env c = true →
     ∃ jti, UUID_of_hex env (UUID_hex env (next_uuid w)) = Some jti
            ∧ jti ∉ w_blacklisted w) →
  ∃ token decoded w' o o',
    (token ← construct env c None;
     encoded ← Token___str__ env token;
     decoded ← construct env c (Some encoded);
     mret (token, decoded)) w
    = (Return (token, decoded), w')
    ∧ token ≠ decoded
    ∧ w_heap w' !! token = Some o
    ∧ w_heap w' !! decoded = Some o'
    ∧ o_payload o' = o_payload o
    ∧ o_class o' = c
    ∧ o_token o' = Some (token_backend_encode env (o_payload o))
    ∧ o_current_time o' = now (tick w).
Proof.
  intros Hty Hlt Hnames p Hloop Hexp Hmixin.
  destruct (new_payload_lookups env c ty (next_uuid w) (now w) lt Hnames)
    as (Hp_type & Hp_jti & Hp_exp). fold p in Hp_type, Hp_jti, Hp_exp.
  set (token := fresh (dom (w_heap w))).
  set (o := {| o_class := c; o_token := None; o_current_time := now w; o_payload := p |}).
  set (w1 := set_object token o (drawn (tick w))).
  assert (w_heap w1 !! token = Some o) as Htoken by (unfold w1; heap_lookup).
  assert (now w1 = now (tick w)) as Hnow by (unfold w1; by autorewrite with frame).
  destruct (construct_accepts env c (token_backend_encode env p) w1 ty lt p Hty Hlt Hloop)
    as (w' & Hrun & Hheap).
  { rewrite Hnow. eexists _, _. split_and!; [exact Hp_exp|reflexivity|exact Hexp]. }
  { exact Hp_type. }
  { by rewrite Hp_jti. }
  { intros Hactive. destruct (Hmixin Hactive) as (jti & Hparse & Hfree).
    eexists _, jti. split_and!; [exact Hp_jti|exact Hparse|].
    unfold w1. by autorewrite with frame. }
  assert (fresh (dom (w_heap w1)) ≠ token) as Hne.
  { intros Heq. pose proof (fresh_loc_unused w1) as Hfresh. rewrite Heq in Hfresh.
    congruence. }
  eexists token, (fresh (dom (w_heap w1))), w', o, _. split.
  { etrans; [eapply bind_Return; exact (construct_fresh env c w ty lt Hty Hlt)|cbv beta].
    fold p token o w1.
    etrans; [eapply bind_Return; exact (Token___str___run env token w1 o Htoken)|cbv beta].
    etrans; [eapply bind_Return; exact Hrun|reflexivity]. }
  rewrite Hheap. split; [done|].
  split; [by rewrite lookup_insert_ne|]. split; [apply lookup_insert_eq|].
  by rewrite Hnow.
Qed.

Lemma encode_decode_round_trip_witness :
  let env := loopback_env default_settings
               (new_payload example_env RefreshToken "refresh" 7%N
                  (seconds 1000 + 250)%Z (seconds 86400)) in
  ∃ token decoded w' o o',
    (token ← construct env RefreshToken None;
     encoded ← Token___str__ env token;
     decoded ← construct env RefreshToken (Some encoded);
     mret (token, decoded)) example_world
    = (Return (token, decoded), w')
    ∧ w_heap w' !! token = Some o
    ∧ w_heap w' !! decoded = Some o'
    ∧ o_payload o' = o_payload o.
Proof.
  intros env.
  destruct (encode_decode_round_trip env RefreshToken example_world "refresh"
              (seconds 86400) eq_refl eq_refl)
    as (token & decoded & w' & o & o' & Hrun & _ & Ho & Ho' & Hsame & _).
  - split_and!; [discriminate..|]. discriminate.
  - reflexivity.
  - by vm_compute.
  - intros _. exists 7%N. split; [by vm_compute|]. by vm_compute.
  - by exists token, decoded, w', o, o'.
Defined.

(** X8.  Type confusion.  A new token of one class, encoded and presented
    to a class with another [token_type] before its exp, is rejected with
    'Token has wrong type'. *)
Theorem other_class_rejects_token env c c' w ty lt ty' lt' :
  token_type c = Some ty →
  lifetime (settings env) c = Some lt →
  token_type c' = Some ty' →
  lifetime (settings env) c' = Some lt' →
  ty ≠ ty' →
  distinct_claim_names env c →
  let p := new_payload env c ty (next_uuid w) (now w) lt in
  token_backend_decode env (token_backend_encode env p) = inr p →
  (now (tick w) < seconds (datetime_to_epoch (now w + lt)))%Z →
  ((token ← construct env c None;
    encoded ← Token___str__ env token;
    construct env c' (Some encoded)) w).1
  = Raise (TokenError "Token has wrong type").
Proof.
  intros Hty Hlt Hty' Hlt' Hne Hnames p Hloop Hexp.
  destruct (new_payload_lookups env c ty (next_uuid w) (now w) lt Hnames)
    as (Hp_type & _ & Hp_exp). fold p in Hp_type, Hp_exp.
  erewrite bind_Return; [|exact (construct_fresh env c w ty lt Hty Hlt)].
  erewrite bind_Return; [|by eapply Token___str___run; heap_lookup].
  cbn [o_payload]. fold p.
  eapply construct_rejects; [exact Hty'|exact Hlt'|exact Hloop|].
  autorewrite with frame. unfold decoded_checks.
  rewrite Hp_exp, Hp_type. cbn [datetime_from_epoch]. fold (seconds (datetime_to_epoch (now w + lt))).
  rewrite bool_decide_eq_false_2 by lia.
  destruct (str_ne ty' (VStr ty)) eqn:Hstr; [reflexivity|].
  apply str_ne_false in Hstr. congruence.
Qed.

Lemma other_class_rejects_token_witness :
  let env := loopback_env default_settings
               (new_payload example_env RefreshToken "refresh" 7%N
                  (seconds 1000 + 250)%Z (seconds 86400)) in
  ((token ← construct env RefreshToken None;
    encoded ← Token___str__ env token;
    construct env AccessToken (Some encoded)) example_world).1
  = Raise (TokenError "Token has wrong type").
Proof.
  intros env.
  apply (other_class_rejects_token env RefreshToken AccessToken example_world
           "refresh" (seconds 86400) "access" (seconds 300) eq_refl eq_refl eq_refl eq_refl).
  - discriminate.
  - split_and!; discriminate.
  - reflexivity.
  - by vm_compute.
Defined.

(** X9.  A claim deleted before encoding is missed on decoding.  A new
    token from which exp, the type claim or jti is deleted, then encoded and
    given back to its class, is rejected with the error of that claim:
    'Token has no 'exp' claim', 'Token has no type', 'Token has no id'. *)
Theorem deleted_claim_rejected env c w ty lt :
  token_type c = Some ty →
  lifetime (settings env) c = Some lt →
  distinct_claim_names env c →
  let p := new_payload env c ty (next_uuid w) (now w) lt in
  let reads_back q := token_backend_decode env (token_backend_encode env q) = inr q in
  let reissued claim :=
    ((token ← construct env c None;
      Token___delitem__ token claim;;
      encoded ← Token___str__ env token;
      construct env c (Some encoded)) w).1 in
  (reads_back (delete "exp" p) →
     reissued "exp" = Raise (TokenError "Token has no 'exp' claim"))
  ∧ (reads_back (delete (TOKEN_TYPE_CLAIM (settings env)) p) →
     (now (tick w) < seconds (datetime_to_epoch (now w + lt)))%Z →
     reissued (TOKEN_TYPE_CLAIM (settings env)) = Raise (TokenError "Token has no type"))
  ∧ (reads_back (delete "jti" p) →
     (now (tick w) < seconds (datetime_to_epoch (now w + lt)))%Z →
     reissued "jti" = Raise (TokenError "Token has no id")).
Proof.
  intros Hty Hlt Hnames p reads_back reissued.
  pose proof Hnames as (Htype_exp & Htype_jti & _).
  destruct (new_payload_lookups env c ty (next_uuid w) (now w) lt Hnames)
    as (Hp_type & Hp_jti & Hp_exp). fold p in Hp_type, Hp_jti, Hp_exp.
  assert (∀ claim, is_Some (p !! claim) → reads_back (delete claim p) →
            ∀ e, decoded_checks (settings env) ty (now (tick w)) (delete claim p) = Raise e →
                 reissued claim = Raise e) as Hreissued.
  { intros claim [value Hclaim] Hloop e Hchecks. subst reissued. cbv beta.
    erewrite bind_Return; [|exact (construct_fresh env c w ty lt Hty Hlt)].
    fold p.
    erewrite bind_Return.
    2:{ unfold Token___delitem__. mstep. cbn [o_payload]. rewrite Hclaim.
        apply update_run. heap_lookup. }
    autorewrite with world.
    erewrite bind_Return; [|by eapply Token___str___run; heap_lookup].
    cbn [o_payload with_payload].
    eapply construct_rejects; [exact Hty|exact Hlt|exact Hloop|].
    autorewrite with frame. exact Hchecks. }
  split_and!.
  - intros Hloop. apply Hreissued; [by rewrite Hp_exp|exact Hloop|].
    unfold decoded_checks. by rewrite lookup_delete_eq.
  - intros Hloop Hexp. apply Hreissued; [by rewrite Hp_type|exact Hloop|].
    unfold decoded_checks. rewrite lookup_delete_ne, Hp_exp by done.
    cbn [datetime_from_epoch]. fold (seconds (datetime_to_epoch (now w + lt))).
    rewrite bool_decide_eq_false_2 by lia. by rewrite lookup_delete_eq.
  - intros Hloop Hexp. apply Hreissued; [by rewrite Hp_jti|exact Hloop|].
    unfold decoded_checks. rewrite lookup_delete_ne, Hp_exp by done.
    cbn [datetime_from_epoch]. fold (seconds (datetime_to_epoch (now w + lt))).
    rewrite bool_decide_eq_false_2 by lia.
    rewrite lookup_delete_ne, Hp_type by done.
    assert (str_ne ty (VStr ty) = false) as -> by by apply str_ne_false.
    rewrite lookup_delete_eq. rewrite bool_decide_eq_false_2; [done|]. by intros [? [=]].
Qed.

Lemma deleted_claim_rejected_witness :
  let env := loopback_env default_settings
               (delete "jti" (new_payload example_env AccessToken "access" 7%N
                                (seconds 1000 + 250)%Z (seconds 300))) in
  ((token ← construct env AccessToken None;
    Token___delitem__ token "jti";;
    encoded ← Token___str__ env token;
    construct env AccessToken (Some encoded)) example_world).1
  = Raise (TokenError "Token has no id").
Proof.
  intros env.
  destruct (deleted_claim_rejected env AccessToken example_world "access" (seconds 300)
              eq_refl eq_refl) as (_ & _ & Hjti).
  - split_and!; discriminate.
  - apply Hjti; [reflexivity|by vm_compute].
Defined.



(** ** What validation looks at *)

Lemma construct_misconfigured_run env c token w :
  token_type c = None ∨ lifetime (settings env) c = None →
  construct env c token w
  = (Raise (TokenError "Cannot create token with no type or lifetime"),
     set_object (fresh (dom (w_heap w))) (blank c) w).
Proof.
  intros Hcfg. rewrite construct_run. cbv zeta.
  by erewrite __init___misconfigured; [|heap_lookup|reflexivity|exact Hcfg].
Qed.

Lemma check_blacklist_outcome env self w o :
  w_heap w !! self = Some o →
  check_blacklist env self w
  = match o_payload o !! "jti" with
    | None => (Raise (KeyError "jti"), w)
    | Some (VStr hex) =>
        match UUID_of_hex env hex with
        | Some jti =>
            (if bool_decide (jti ∈ w_blacklisted w)
             then Raise (TokenError "Token is blacklisted") else Return tt,
             queried jti w)
        | None => (Raise ValueError, w)
        end
    | Some VNull => (Raise TypeError, w)
    | Some _ => (Raise AttributeError, w)
    end.
Proof.
  intros Hself. destruct (o_payload o !! "jti") as [v|] eqn:Hjti.
  - destruct v as [n|hex| |l].
    + unfold check_blacklist.
      erewrite bind_Return; [|by eapply Token___getitem___run]. reflexivity.
    + destruct (UUID_of_hex env hex) as [jti|] eqn:Hhex.
      * by eapply check_blacklist_run.
      * unfold check_blacklist.
        erewrite bind_Return; [|by eapply Token___getitem___run].
        unfold UUID. rewrite Hhex. reflexivity.
    + unfold check_blacklist.
      erewrite bind_Return; [|by eapply Token___getitem___run]. reflexivity.
    + unfold check_blacklist.
      erewrite bind_Return; [|by eapply Token___getitem___run]. reflexivity.
  - unfold check_blacklist.
    erewrite bind_Raise; [reflexivity|]. by eapply Token___getitem___missing.
Qed.

Lemma decoded_checks_ext cfg ty t p1 p2 :
  p1 !! "exp" = p2 !! "exp" →
  p1 !! TOKEN_TYPE_CLAIM cfg = p2 !! TOKEN_TYPE_CLAIM cfg →
  p1 !! "jti" = p2 !! "jti" →
  decoded_checks cfg ty t p1 = decoded_checks cfg ty t p2.
Proof. intros Hexp Htype Hjti. unfold decoded_checks. by rewrite Hexp, Htype, Hjti. Qed.

(** X11.  Validation reads the claims exp, type and jti and no other: two
    encoded tokens whose decoded claims agree on these three are both
    accepted or both rejected, with the same error, whatever else they
    carry.  In particular a sliding token's refresh claim is not checked
    when the token is decoded. *)
Theorem validation_reads_three_claims env c token1 token2 w p1 p2 :
  token_backend_decode env token1 = inr p1 →
  token_backend_decode env token2 = inr p2 →
  p1 !! "exp" = p2 !! "exp" →
  p1 !! TOKEN_TYPE_CLAIM (settings env) = p2 !! TOKEN_TYPE_CLAIM (settings env) →
  p1 !! "jti" = p2 !! "jti" →
  (construct env c (Some token1) w).1 = (construct env c (Some token2) w).1.
Proof.
  intros Hp1 Hp2 Hexp Htype Hjti.
  destruct (token_type c) as [ty|] eqn:Hty;
    [destruct (lifetime (settings env) c) as [lt|] eqn:Hlt|].
  - rewrite !(construct_decode env c _ w ty lt Hty Hlt). cbv zeta. rewrite Hp1, Hp2.
    rewrite (decoded_checks_ext _ ty (now w) p1 p2 Hexp Htype Hjti).
    destruct (decoded_checks (settings env) ty (now w) p2) as [[]|e]; [|reflexivity].
    destruct (mixin_active env c); [|reflexivity].
    erewrite !check_blacklist_outcome by (unfold decoded_world; heap_lookup).
    cbn [o_payload]. rewrite Hjti.
    destruct (p2 !! "jti") as [[n|hex| |l]|]; try reflexivity.
    destruct (UUID_of_hex env hex) as [jti|]; [|reflexivity].
    unfold decoded_world. autorewrite with frame. by case_bool_decide.
  - by rewrite !construct_misconfigured_run by (by right).
  - by rewrite !construct_misconfigured_run by (by left).
Qed.

Lemma validation_reads_three_claims_witness :
  let plain := example_claims "sliding" 2000 3%N in
  let stale := <["refresh_exp" := VInt 5]> plain in
  let env := pair_env default_settings plain stale in
  (construct env SlidingToken (Some "second") example_world).1
  = (construct env SlidingToken (Some "first") example_world).1.
Proof.
  intros plain stale env. symmetry.
  by apply (validation_reads_three_claims env SlidingToken "first" "second"
              example_world plain stale).
Defined.

(** X12.  With the methods of [BlacklistMixin] in force, an encoded token
    that passes the checks on exp, type and jti but whose jti claim is not
    the hex form of a UUID is not answered with a [TokenError]: [UUID]
    raises [ValueError] for a string it cannot read, and another exception
    for a claim that is not a string; the blacklist is not looked up. *)
Theorem malformed_jti_not_TokenError env c token w ty lt p value :
  mixin_active env c = true →
  token_type c = Some ty →
  lifetime (settings env) c = Some lt →
  token_backend_decode env token = inr p →
  unexpired p "exp" (now w) →
  p !! TOKEN_TYPE_CLAIM (settings env) = Some (VStr ty) →
  p !! "jti" = Some value →
  (∀ hex jti, value = VStr hex → UUID_of_hex env hex ≠ Some jti) →
  ∃ e w',
    construct env c (Some token) w = (Raise e, w')
    ∧ exn_name e ≠ "TokenError"
    ∧ (∀ hex, value = VStr hex → e = ValueError)
    ∧ w_ledger_calls w' = w_ledger_calls w.
Proof.
  intros Hmixin Hty Hlt Hp Hexp Htype Hjti Hbad.
  rewrite (construct_decode env c token w ty lt Hty Hlt). cbv zeta. rewrite Hp, Hmixin.
  assert (decoded_checks (settings env) ty (now w) p = Return tt) as ->.
  { apply decoded_checks_Return. split_and!; [done..|]. by rewrite Hjti. }
  erewrite check_blacklist_outcome by (unfold decoded_world; heap_lookup).
  cbn [o_payload]. rewrite Hjti. unfold decoded_world.
  destruct value as [n|hex| |l].
  - eexists _, _. split; [reflexivity|]. autorewrite with frame. by split_and!.
  - destruct (UUID_of_hex env hex) as [jti|] eqn:Hhex; [by destruct (Hbad hex jti)|].
    eexists _, _. split; [reflexivity|]. autorewrite with frame. by split_and!.
  - eexists _, _. split; [reflexivity|]. autorewrite with frame. by split_and!.
  - eexists _, _. split; [reflexivity|]. autorewrite with frame. by split_and!.
Qed.

Lemma malformed_jti_not_TokenError_witness :
  let env := loopback_env default_settings
               (<["jti" := VStr "not-a-uuid"]> (example_claims "refresh" 2000 2%N)) in
  (construct env RefreshToken (Some "signed") example_world).1 = Raise ValueError.
Proof.
  intros env.
  destruct (malformed_jti_not_TokenError env RefreshToken "signed" example_world
              "refresh" (seconds 86400)
              (<["jti" := VStr "not-a-uuid"]> (example_claims "refresh" 2000 2%N))
              (VStr "not-a-uuid") eq_refl eq_refl eq_refl eq_refl)
    as (e & w' & Hrun & _ & Hvalue & _).
  - eexists _, _. split_and!; [reflexivity..|by vm_compute].
  - reflexivity.
  - reflexivity.
  - intros hex jti [= <-]. by vm_compute.
  - rewrite Hrun. cbn. f_equal. by apply (Hvalue "not-a-uuid").
Defined.

(** X13.  Where the methods of [BlacklistMixin] are not in force (the class
    is [AccessToken] or a plain subclass of [Token], or the token_blacklist
    app is not installed), construction never calls the ledger, and an
    encoded token that passes the checks on exp, type and jti is accepted
    whether or not its identifier is blacklisted. *)
Theorem no_blacklist_without_mixin env c w :
  mixin_active env c = false →
  (∀ token result w',
     construct env c token w = (result, w') →
     w_ledger_calls w' = w_ledger_calls w ∧ w_outstanding w' = w_outstanding w)
  ∧ (∀ token ty lt p,
       token_type c = Some ty →
       lifetime (settings env) c = Some lt →
       token_backend_decode env token = inr p →
       unexpired p "exp" (now w) →
       p !! TOKEN_TYPE_CLAIM (settings env) = Some (VStr ty) →
       is_Some (p !! "jti") →
       ∃ self w', construct env c (Some token) w = (Return self, w')).
Proof.
  intros Hmixin. split.
  - intros token result w'.
    destruct (token_type c) as [ty|] eqn:Hty;
      [destruct (lifetime (settings env) c) as [lt|] eqn:Hlt|].
    + destruct token as [token|].
      * rewrite (construct_decode env c token w ty lt Hty Hlt). cbv zeta. rewrite Hmixin.
        unfold decoded_world.
        destruct (token_backend_decode env token) as [reason|p].
        { intros [= <- <-]. by autorewrite with frame. }
        destruct (decoded_checks _ _ _ _) as [[]|e]; intros [= <- <-];
          by autorewrite with frame.
      * rewrite (construct_fresh env c w ty lt Hty Hlt). intros [= <- <-].
        by autorewrite with frame.
    + rewrite construct_misconfigured_run by (by right). intros [= <- <-].
      by autorewrite with frame.
    + rewrite construct_misconfigured_run by (by left). intros [= <- <-].
      by autorewrite with frame.
  - intros token ty lt p Hty Hlt Hp Hexp Htype Hjti.
    destruct (construct_accepts env c token w ty lt p Hty Hlt Hp Hexp Htype Hjti)
      as (w' & Hrun & _); [by rewrite Hmixin|]. by eexists _, _.
Qed.

Lemma no_blacklist_without_mixin_witness :
  let env := loopback_env default_settings (example_claims "access" 2000 5%N) in
  ∃ self w',
    construct env AccessToken (Some "signed") example_world = (Return self, w')
    ∧ w_ledger_calls w' = [].
Proof.
  intros env.
  destruct (no_blacklist_without_mixin env AccessToken example_world eq_refl)
    as [Hledger Haccepted].
  destruct (Haccepted "signed" "access" (seconds 300) (example_claims "access" 2000 5%N)
              eq_refl eq_refl eq_refl) as (self & w' & Hrun).
  - eexists _, _. split_and!; [reflexivity..|by vm_compute].
  - reflexivity.
  - by eexists.
  - exists self, w'. split; [exact Hrun|]. by apply (Hledger _ _ _ Hrun).
Defined.

(** ** [for_user] and the ledger *)

Lemma BlacklistMixin_for_user_row env c user w user_id ty lt exp hex jti :
  user !! USER_ID_FIELD (settings env) = Some user_id →
  token_type c = Some ty →
  lifetime (settings env) c = Some lt →
  let p := <[USER_ID_CLAIM (settings env) := user_id_claim user_id]>
             (new_payload env c ty (next_uuid w) (now w) lt) in
  p !! "exp" = Some (VInt exp) →
  p !! "jti" = Some (VStr hex) →
  UUID_of_hex env hex = Some jti →
  BlacklistMixin_for_user env c user w
  = (Return (fresh (dom (w_heap w))),
     recorded
       {| row_user := user; row_jti := jti;
          row_token := token_backend_encode env p;
          row_created_at := now w;
          row_expires_at := seconds exp |}
       (set_object (fresh (dom (w_heap w)))
          {| o_class := c; o_token := None; o_current_time := now w; o_payload := p |}
          (drawn (tick w)))).
Proof.
  intros Huser Hty Hlt p Hexp Hjti Hhex. unfold BlacklistMixin_for_user.
  etrans; [eapply bind_Return; by eapply Token_for_user_run|cbv beta].
  etrans; [eapply bind_Return; eapply Token___getitem___run; [heap_lookup|exact Hexp]
          |cbv beta].
  etrans; [eapply bind_Return; eapply Token___getitem___run; [heap_lookup|exact Hjti]
          |cbv beta].
  etrans; [eapply bind_Return; cbn; by rewrite Hhex|cbv beta].
  etrans; [eapply bind_Return; by eapply Token___str___run; heap_lookup|cbv beta].
  mstep. cbn [datetime_from_epoch o_payload o_current_time].
  mstep. reflexivity.
Qed.

(** X14.  Where the methods of [BlacklistMixin] are in force, [for_user]
    records the new token as outstanding: one row is added, with the user,
    the identifier drawn, the token's encoded form (user id claim
    included), the captured time as creation time and the token's exp as
    expiry; that is the only call of the ledger, and the blacklist is not
    looked up. *)
Theorem for_user_records_outstanding env c user w user_id ty lt jti :
  mixin_active env c = true →
  user !! USER_ID_FIELD (settings env) = Some user_id →
  token_type c = Some ty →
  lifetime (settings env) c = Some lt →
  distinct_claim_names env c →
  USER_ID_CLAIM (settings env) ≠ "exp" →
  USER_ID_CLAIM (settings env) ≠ "jti" →
  UUID_of_hex env (UUID_hex env (next_uuid w)) = Some jti →
  ∃ self w' o,
    for_user env c user w = (Return self, w')
    ∧ w_heap w' !! self = Some o
    ∧ let row := {| row_user := user; row_jti := jti;
                    row_token := token_backend_encode env (o_payload o);
                    row_created_at := o_current_time o;
                    row_expires_at := seconds (datetime_to_epoch (now w + lt)) |} in
      w_outstanding w' = (w_outstanding w ++ [row])%list
      ∧ w_ledger_calls w' = (w_ledger_calls w ++ [OutstandingToken_create row])%list.
Proof.
  intros Hmixin Huser Hty Hlt Hnames Hid_exp Hid_jti Hhex.
  destruct (new_payload_lookups env c ty (next_uuid w) (now w) lt Hnames)
    as (_ & Hp_jti & Hp_exp).
  unfold for_user. fold (mixin_active env c). rewrite Hmixin.
  erewrite BlacklistMixin_for_user_row; [|done..| | |exact Hhex].
  2:{ rewrite lookup_insert_ne by done. exact Hp_exp. }
  2:{ rewrite lookup_insert_ne by done. exact Hp_jti. }
  eexists _, _, _. split; [reflexivity|]. split; [heap_lookup|].
  cbn [o_payload o_current_time]. by autorewrite with frame.
Qed.

Lemma for_user_records_outstanding_witness :
  ∃ self w' row,
    for_user example_env RefreshToken example_user example_world = (Return self, w')
    ∧ w_outstanding w' = [row]
    ∧ row_jti row = 7%N
    ∧ row_expires_at row = seconds 87400
    ∧ w_ledger_calls w' = [OutstandingToken_create row].
Proof.
  destruct (for_user_records_outstanding example_env RefreshToken example_user
              example_world (AInt 42) "refresh" (seconds 86400) 7%N
              eq_refl eq_refl eq_refl eq_refl)
    as (self & w' & o & Hrun & Ho & Hrows & Hcalls).
  - split_and!; discriminate.
  - discriminate.
  - discriminate.
  - by vm_compute.
  - eexists self, w', _. split_and!; [exact Hrun|exact Hrows|reflexivity| |exact Hcalls].
    by vm_compute.
Defined.

(** X15.  Where the methods of [BlacklistMixin] are not in force,
    [for_user] records nothing and makes no call of the ledger. *)
Theorem for_user_without_mixin_no_ledger env c user w result w' :
  mixin_active env c = false →
  for_user env c user w = (result, w') →
  w_outstanding w' = w_outstanding w ∧ w_ledger_calls w' = w_ledger_calls w.
Proof.
  intros Hmixin. unfold for_user. fold (mixin_active env c). rewrite Hmixin.
  unfold Token_for_user, getattr.
  destruct (user !! USER_ID_FIELD (settings env)) as [user_id|].
  - destruct (token_type c) as [ty|] eqn:Hty;
      [destruct (lifetime (settings env) c) as [lt|] eqn:Hlt|].
    + erewrite bind_Return by reflexivity.
      erewrite bind_Return by exact (construct_fresh env c w ty lt Hty Hlt).
      erewrite bind_Return by (eapply Token___setitem___run; heap_lookup).
      intros [= <- <-]. by autorewrite with world frame.
    + erewrite bind_Return by reflexivity.
      erewrite bind_Raise by (apply construct_misconfigured_run; by right).
      intros [= <- <-]. by autorewrite with frame.
    + erewrite bind_Return by reflexivity.
      erewrite bind_Raise by (apply construct_misconfigured_run; by left).
      intros [= <- <-]. by autorewrite with frame.
  - erewrite bind_Raise by reflexivity. by intros [= <- <-].
Qed.

Lemma for_user_without_mixin_no_ledger_witness :
  ∃ self w',
    for_user example_env AccessToken example_user example_world = (Return self, w')
    ∧ w_outstanding w' = [] ∧ w_ledger_calls w' = [].
Proof.
  destruct (for_user example_env AccessToken example_user example_world)
    as [result w'] eqn:Hrun.
  assert (∃ self, result = Return self) as [self ->].
  { replace result with (for_user example_env AccessToken example_user example_world).1
      by (by rewrite Hrun). by vm_compute; eexists. }
  exists self, w'. split; [reflexivity|].
  exact (for_user_without_mixin_no_ledger example_env AccessToken example_user
           example_world (Return self) w' eq_refl Hrun).
Defined.

(** X16.  [for_user] on a user without the USER_ID_FIELD attribute raises
    [AttributeError] before anything is constructed: the world is as it
    was.  On a user that has it and a class that is not configured, it
    raises the [TokenError] of construction. *)
Theorem for_user_errors env c user w :
  (user !! USER_ID_FIELD (settings env) = None →
     for_user env c user w = (Raise AttributeError, w))
  ∧ (is_Some (user !! USER_ID_FIELD (settings env)) →
     token_type c = None ∨ lifetime (settings env) c = None →
     (for_user env c user w).1
     = Raise (TokenError "Cannot create token with no type or lifetime")).
Proof.
  assert (∀ user_id, user !! USER_ID_FIELD (settings env) = Some user_id →
            token_type c = None ∨ lifetime (settings env) c = None →
            (Token_for_user env c user w).1
            = Raise (TokenError "Cannot create token with no type or lifetime")) as Hbase.
  { intros user_id Huser Hcfg. unfold Token_for_user, getattr. rewrite Huser.
    erewrite bind_Return by reflexivity.
    by erewrite bind_Raise by (by apply construct_misconfigured_run). }
  split.
  - intros Huser. unfold for_user.
    destruct (has_BlacklistMixin c && token_blacklist_installed (settings env)).
    + unfold BlacklistMixin_for_user. erewrite bind_Raise; [reflexivity|].
      unfold Token_for_user, getattr. rewrite Huser. by erewrite bind_Raise.
    + unfold Token_for_user, getattr. rewrite Huser. by erewrite bind_Raise.
  - intros [user_id Huser] Hcfg. unfold for_user.
    destruct (has_BlacklistMixin c && token_blacklist_installed (settings env)).
    + unfold BlacklistMixin_for_user.
      specialize (Hbase user_id Huser Hcfg).
      destruct (Token_for_user env c user w) as [r w1] eqn:Hrun. cbn in Hbase. subst r.
      by erewrite bind_Raise.
    + by eapply Hbase.
Qed.

Lemma for_user_errors_witness :
  for_user example_env RefreshToken (<["username" := AText "alice"]> ∅) example_world
  = (Raise AttributeError, example_world)
  ∧ (for_user example_env (Token_subclass (Some "test") None) example_user example_world).1
    = Raise (TokenError "Cannot create token with no type or lifetime").
Proof.
  split.
  - by apply (proj1 (for_user_errors example_env RefreshToken
                       (<["username" := AText "alice"]> ∅) example_world)).
  - apply (proj2 (for_user_errors example_env (Token_subclass (Some "test") None)
                    example_user example_world)); [by eexists|by right].
Defined.

(** ** [access_token] and the rest of the world *)

Lemma copy_loop_frame access (no_copy : list string) items w o result w' :
  w_heap w !! access = Some o →
  for_each items (λ '(claim, value),
    if bool_decide (claim ∈ no_copy)
    then mret tt
    else Token___setitem__ access claim value) w
  = (result, w') →
  w_clock_reads w' = w_clock_reads w
  ∧ w_uuid4_draws w' = w_uuid4_draws w
  ∧ w_ledger_calls w' = w_ledger_calls w
  ∧ w_outstanding w' = w_outstanding w.
Proof.
  revert w o. induction items as [|[k v] items IH]; intros w o Ho.
  { by intros [= <- <-]. }
  rewrite for_each_cons. cbv beta iota.
  destruct (decide (k ∈ no_copy)) as [Hin|Hnin];
    [rewrite bool_decide_eq_true_2 by done|rewrite bool_decide_eq_false_2 by done].
  - erewrite bind_Return by reflexivity. by apply (IH w o).
  - erewrite bind_Return by (by eapply Token___setitem___run).
    intros Hrun. eapply IH in Hrun; [|heap_lookup].
    by autorewrite with frame in Hrun.
Qed.

(** X17.  [access_token] with ACCESS_TOKEN_LIFETIME unset raises the
    [TokenError] of construction and leaves the refresh token as it was. *)
Theorem access_token_unconfigured env self w o :
  w_heap w !! self = Some o →
  ACCESS_TOKEN_LIFETIME (settings env) = None →
  ∃ w',
    access_token env self w
    = (Raise (TokenError "Cannot create token with no type or lifetime"), w')
    ∧ w_heap w' !! self = Some o.
Proof.
  intros Hself Hlt.
  assert (fresh (dom (w_heap w)) ≠ self) as Hne.
  { intros Heq. pose proof (fresh_loc_unused w) as Hfresh. rewrite Heq in Hfresh.
    congruence. }
  eexists. split.
  - unfold access_token. eapply bind_Raise. apply construct_misconfigured_run. by right.
  - by rewrite lookup_set_object_ne.
Qed.

Lemma access_token_unconfigured_witness :
  let env := {| settings :=
                  {| TOKEN_TYPE_CLAIM := "token_type"; USER_ID_FIELD := "id";
                     USER_ID_CLAIM := "user_id";
                     ACCESS_TOKEN_LIFETIME := None;
                     REFRESH_TOKEN_LIFETIME := Some (seconds 86400);
                     SLIDING_TOKEN_LIFETIME := Some (seconds 300);
                     SLIDING_TOKEN_REFRESH_LIFETIME := Some (seconds 86400);
                     SLIDING_TOKEN_REFRESH_EXP_CLAIM := "refresh_exp";
                     token_blacklist_installed := false |};
                token_backend_decode := example_decode;
                token_backend_encode := example_encode;
                UUID_of_hex := example_UUID_of_hex;
                UUID_hex := example_UUID_hex |} in
  ((refresh ← construct env RefreshToken None; access_token env refresh) example_world).1
  = Raise (TokenError "Cannot create token with no type or lifetime").
Proof.
  intros env.
  erewrite bind_Return
    by exact (construct_fresh env RefreshToken example_world "refresh" (seconds 86400)
                eq_refl eq_refl).
  match goal with |- (access_token _ ?l (set_object _ ?o ?w)).1 = _ =>
    destruct (access_token_unconfigured env l (set_object l o w) o
                (lookup_set_object l o w) eq_refl) as (w' & Hrun & _)
  end.
  by rewrite Hrun.
Defined.

(** X18.  [access_token] reads the clock once and draws one identifier; it
    makes no call of the ledger: the access token is not recorded as
    outstanding and the blacklist is not looked up. *)
Theorem access_token_frame env self w o access_lifetime result w' :
  w_heap w !! self = Some o →
  ACCESS_TOKEN_LIFETIME (settings env) = Some access_lifetime →
  access_token env self w = (result, w') →
  w_clock_reads w' = S (w_clock_reads w)
  ∧ w_uuid4_draws w' = S (w_uuid4_draws w)
  ∧ w_ledger_calls w' = w_ledger_calls w
  ∧ w_outstanding w' = w_outstanding w.
Proof.
  intros Hself Hlt.
  assert (fresh (dom (w_heap w)) ≠ self) as Hne.
  { intros Heq. pose proof (fresh_loc_unused w) as Hfresh. rewrite Heq in Hfresh.
    congruence. }
  unfold access_token.
  erewrite bind_Return
    by exact (construct_fresh env AccessToken w "access" access_lifetime eq_refl Hlt).
  erewrite bind_Return by (apply read_run; heap_lookup).
  erewrite bind_Return by (eapply set_exp_run; [heap_lookup|exact Hlt]).
  autorewrite with world.
  erewrite bind_Return by (apply read_run; heap_lookup).
  match goal with |- (for_each ?items ?body ≫= _) ?w0 = _ → _ =>
    destruct (for_each items body w0) as [[[]|e] w1] eqn:Hloop
  end.
  - erewrite bind_Return by exact Hloop. intros [= <- <-].
    eapply copy_loop_frame in Hloop; [|heap_lookup].
    by autorewrite with frame in Hloop.
  - erewrite bind_Raise by exact Hloop. intros [= <- <-].
    eapply copy_loop_frame in Hloop; [|heap_lookup].
    by autorewrite with frame in Hloop.
Qed.

Lemma access_token_frame_witness :
  ∃ refresh w1 access w2,
    construct example_env RefreshToken None example_world = (Return refresh, w1)
    ∧ access_token example_env refresh w1 = (Return access, w2)
    ∧ w_clock_reads w2 = 2%nat
    ∧ w_ledger_calls w2 = [].
Proof.
  pose proof (construct_fresh example_env RefreshToken example_world "refresh"
                (seconds 86400) eq_refl eq_refl) as Hrefresh.
  match type of Hrefresh with _ = (Return ?l, set_object _ ?o ?w) =>
    destruct (access_token_run example_env l (set_object l o w) o (seconds 300)
                (lookup_set_object l o w) eq_refl) as (w2 & Hrun & _);
    destruct (access_token_frame example_env l (set_object l o w) o (seconds 300) _ w2
                (lookup_set_object l o w) eq_refl Hrun) as (Hreads & _ & Hcalls & _);
    eexists l, (set_object l o w), _, w2
  end.
  split_and!; [exact Hrefresh|exact Hrun|by rewrite Hreads|by rewrite Hcalls].
Defined.
